(** * easybets-api: odds scraper, match lookup and heuristic predictor

    A shallow embedding of [app.py] and [ml_predictions.py].

    Conventions of the embedding.
    - Python [int] is [Z].  A Python [str] is a [string] that holds the
      UTF-8 bytes of its characters.
    - What the interpreter computes from tables of its own ([str.isdigit],
      [str.lower], [int(s)], [float(s)], the class [\d] of [re], the value
      of a float literal) is a parameter of the model, [Py.Builtins].
      [Py.reference] implements these functions on ASCII text.
    - The scraper converts and stores floats and never computes with them:
      it is parametric in the float type.  The predictor computes with
      them: there a float is idealised as an exact rational [Q]; binary64
      rounding, infinities and NaN are outside that part of the model.
    - Code that may raise returns a [result]; [try ... except Exception]
      is a match on that result.
    - The parsed page is represented by the stripped texts that each CSS
      selector used by the scraper yields, in document order.
    - The three draws of [random.uniform(-0.05, 0.05)] made by one call of the
      predictor are an explicit argument.
    - In [scrape_sportpesa] the [except] clause of lines 181-184 has no [try]
      line.  The extraction block, lines 119-179, is embedded as [App.extract];
      the HTTP handlers take the outcome of the call [scrape_sportpesa()] as
      an argument. *)

From Stdlib Require Import ZArith QArith Qround Qabs Qpower Lqa Lia.
From Stdlib Require Import List String Ascii Bool.
Import ListNotations.

Local Open Scope Z_scope.

(* ================================================================== *)
(** * The Python fragment used by the sources *)
(* ================================================================== *)

Module Py.

(** Exceptions raised by the modelled code. [RequestException] stands for
    any failure of the network or of the browser driver. *)
Inductive exn : Type :=
| ValueError
| TypeError
| IndexError
| KeyError
| ZeroDivisionError
| RequestException.

Inductive result (A : Type) : Type :=
| Ok (a : A)
| Raise (e : exn).

Arguments Ok {A} a.
Arguments Raise {A} e.

Definition bind {A B : Type} (r : result A) (k : A -> result B) : result B :=
  match r with
  | Ok a => k a
  | Raise e => Raise e
  end.

(** [len(xs)] *)
Definition len {A : Type} (xs : list A) : Z := Z.of_nat (List.length xs).

(** [xs[i]], with Python's wrap-around of negative indices. *)
Definition getitem {A : Type} (xs : list A) (i : Z) : result A :=
  let j := if i <? 0 then i + len xs else i in
  if j <? 0 then Raise IndexError
  else match nth_error xs (Z.to_nat j) with
       | Some x => Ok x
       | None => Raise IndexError
       end.

(** [xs[i:j]] for [0 <= i <= j]. *)
Definition slice {A : Type} (xs : list A) (i j : Z) : list A :=
  firstn (Z.to_nat (j - i)) (skipn (Z.to_nat i) xs).

(** [range(start, stop, step)] for a positive [step]. *)
Definition range3 (start stop step : Z) : list Z :=
  map (fun k => start + step * Z.of_nat k)
      (seq 0 (Z.to_nat ((stop - start + step - 1) / step))).

(** [range(stop)] *)
Definition range (stop : Z) : list Z := range3 0 stop 1.

(** [min(a, b, c)] on integers. *)
Definition min3 (a b c : Z) : Z := Z.min (Z.min a b) c.

(** [for x in xs: ...] with a body that may raise, collecting the results. *)
Fixpoint mapM {A B : Type} (f : A -> result B) (xs : list A) : result (list B) :=
  match xs with
  | [] => Ok []
  | x :: t =>
      match f x with
      | Ok y => match mapM f t with
                | Ok ys => Ok (y :: ys)
                | Raise e => Raise e
                end
      | Raise e => Raise e
      end
  end.

(** A [dict] with string keys, in insertion order. *)
Definition dict (V : Type) : Type := list (string * V).

Fixpoint lookup {V : Type} (d : dict V) (k : string) : option V :=
  match d with
  | [] => None
  | (k', v) :: t => if String.eqb k' k then Some v else lookup t k
  end.

(** [d[k]] *)
Definition subscript {V : Type} (d : dict V) (k : string) : result V :=
  match lookup d k with
  | Some v => Ok v
  | None => Raise KeyError
  end.

(** [d.get(k, default)] *)
Definition get_default {V : Type} (d : dict V) (k : string) (default : V) : V :=
  match lookup d k with
  | Some v => v
  | None => default
  end.

(** [d.get(k)] on a dict whose values may be [None]: a missing key and a
    null value both give [None]. *)
Definition get {V : Type} (d : dict (option V)) (k : string) : option V :=
  get_default d k None.

(** ** Characters and strings

    The functions of this part that classify or convert characters
    ([lower], [isdigit], [int], [float]) are the interpreter's on ASCII
    text; on other text the interpreter consults the Unicode database. *)

Definition is_digit (c : ascii) : bool :=
  ((48 <=? nat_of_ascii c) && (nat_of_ascii c <=? 57))%nat.

Definition digit_val (c : ascii) : Z := Z.of_nat (nat_of_ascii c) - 48.

Definition is_upper (c : ascii) : bool :=
  ((65 <=? nat_of_ascii c) && (nat_of_ascii c <=? 90))%nat.

Definition is_space (c : ascii) : bool :=
  let n := nat_of_ascii c in
  ((n =? 32) || ((9 <=? n) && (n <=? 13)))%nat.

Definition lower_char (c : ascii) : ascii :=
  if is_upper c then ascii_of_nat (nat_of_ascii c + 32) else c.

(** [s.lower()], on ASCII text *)
Fixpoint lower (s : string) : string :=
  match s with
  | EmptyString => EmptyString
  | String c t => String (lower_char c) (lower t)
  end.

(** [s.startswith(p)] *)
Fixpoint startswith (p s : string) : bool :=
  match p, s with
  | EmptyString, _ => true
  | String a p', String b s' => Ascii.eqb a b && startswith p' s'
  | String _ _, EmptyString => false
  end.

(** [needle in hay] on strings: [needle] occurs as a contiguous substring. *)
Fixpoint contains (needle hay : string) : bool :=
  startswith needle hay ||
  match hay with
  | EmptyString => false
  | String _ t => contains needle t
  end.

(** [s.isdigit()], on ASCII text: non-empty and made of digits only. *)
Fixpoint all_digits (s : string) : bool :=
  match s with
  | EmptyString => true
  | String c t => is_digit c && all_digits t
  end.

Definition isdigit (s : string) : bool :=
  match s with
  | EmptyString => false
  | _ => all_digits s
  end.

(** [s.replace(c, '', 1)]: the first occurrence of [c] is removed. *)
Fixpoint remove_first (c : ascii) (s : string) : string :=
  match s with
  | EmptyString => EmptyString
  | String a t => if Ascii.eqb a c then t else String a (remove_first c t)
  end.

Fixpoint lstrip (s : string) : string :=
  match s with
  | String c t => if is_space c then lstrip t else s
  | EmptyString => EmptyString
  end.

Fixpoint rstrip (s : string) : string :=
  match s with
  | EmptyString => EmptyString
  | String c t =>
      match rstrip t with
      | EmptyString => if is_space c then EmptyString else String c EmptyString
      | t' => String c t'
      end
  end.

(** [s.strip()] *)
Definition strip (s : string) : string := rstrip (lstrip s).

(** ** Numeric literals

    [digitpart ::= digit (["_"] digit)*].  [digits_from acc n s] continues a
    digit part whose first digits had value [acc] and were [n] many, and
    returns the value, the number of digits and the unread rest. *)
Fixpoint digits_from (acc : Z) (n : nat) (s : string) : Z * nat * string :=
  match s with
  | String c t =>
      if is_digit c then digits_from (10 * acc + digit_val c) (S n) t
      else if Ascii.eqb c "_" then
        match t with
        | String d t' =>
            if is_digit d then digits_from (10 * acc + digit_val d) (S n) t'
            else (acc, n, s)
        | EmptyString => (acc, n, s)
        end
      else (acc, n, s)
  | EmptyString => (acc, n, s)
  end.

Definition digitpart (s : string) : option (Z * nat * string) :=
  match s with
  | String c t => if is_digit c then Some (digits_from (digit_val c) 1 t) else None
  | EmptyString => None
  end.

(** An optional sign: [(-1, rest)] after a minus, [(1, rest)] otherwise. *)
Definition sign (s : string) : Z * string :=
  match s with
  | String "-" t => (-1, t)
  | String "+" t => (1, t)
  | _ => (1, s)
  end.

(** [int(s)] on a string, base 10, on ASCII text. *)
Definition int (s : string) : result Z :=
  let '(sg, s1) := sign (strip s) in
  match digitpart s1 with
  | Some (v, _, EmptyString) => Ok (sg * v)
  | _ => Raise ValueError
  end.

Local Open Scope Q_scope.

(** [m * 10^e] as a rational. *)
Definition scale10 (m e : Z) : Q := inject_Z m * Qpower (10 # 1) e.

(** [number ::= [digitpart] "." digitpart | digitpart ["."]]: mantissa,
    number of fraction digits, unread rest. *)
Definition number (s : string) : option (Z * nat * string) :=
  match digitpart s with
  | Some (ip, _, String "." r) =>
      match digitpart r with
      | Some (fp, nf, r') => Some ((ip * 10 ^ Z.of_nat nf + fp)%Z, nf, r')
      | None => Some (ip, O, r)
      end
  | Some (ip, _, r) => Some (ip, O, r)
  | None =>
      match s with
      | String "." r =>
          match digitpart r with
          | Some (fp, nf, r') => Some (fp, nf, r')
          | None => None
          end
      | _ => None
      end
  end.

(** [exponent ::= ("e" | "E") [sign] digitpart], or nothing. *)
Definition exponent (s : string) : option Z :=
  match s with
  | EmptyString => Some 0%Z
  | String c t =>
      if Ascii.eqb c "e" || Ascii.eqb c "E" then
        let '(sg, t1) := sign t in
        match digitpart t1 with
        | Some (v, _, EmptyString) => Some (sg * v)%Z
        | _ => None
        end
      else None
  end.

(** The reference for [float(s)] on ASCII text: the decimal literals of
    Python's grammar ([floatnumber] with an optional sign, surrounding
    white space ignored), with their exact value, before the rounding to
    binary64 that the interpreter applies.  The spellings [inf],
    [infinity] and [nan], which the interpreter accepts, denote no rational
    and are rejected here.  What the scraper is proved to do with
    [float(s)] is stated for the [str_float] of [Builtins] below. *)
Definition float (s : string) : result Q :=
  let '(sg, s1) := sign (strip s) in
  match number s1 with
  | Some (m, nf, r) =>
      match exponent r with
      | Some e => Ok (scale10 (sg * m) (e - Z.of_nat nf))
      | None => Raise ValueError
      end
  | None => Raise ValueError
  end.

(** [sys.float_info.max], the largest finite float. *)
Definition float_max : Q := (2 ^ 1024 - 2 ^ 971)%Q.

(** [x / y] in exact arithmetic; a zero divisor raises, as it does for
    floats. *)
Definition div (x y : Q) : result Q :=
  if Qeq_bool y 0 then Raise ZeroDivisionError else Ok (x / y).

(** [max(a, b)] and [min(a, b)]: the first argument wins ties. *)
Definition max (a b : Q) : Q := if Qlt_le_dec a b then b else a.
Definition min (a b : Q) : Q := if Qlt_le_dec b a then b else a.

(** [abs(x)] *)
Definition abs (x : Q) : Q := if Qlt_le_dec x 0 then - x else x.

(** Round to the nearest integer, ties to the even one. *)
Definition round_half_even (x : Q) : Z :=
  let f := Qfloor x in
  match Qcompare (x - inject_Z f) (1 # 2) with
  | Lt => f
  | Gt => (f + 1)%Z
  | Eq => if Z.even f then f else (f + 1)%Z
  end.

(** [round(x, ndigits)] *)
Definition round (x : Q) (ndigits : nat) : Q :=
  let p := (10 ^ Z.of_nat ndigits)%Z in
  inject_Z (round_half_even (x * inject_Z p)) / inject_Z p.

Local Close Scope Q_scope.

(** ** Text as the interpreter sees it *)

(** [s[:n]] and [s[n:]] on the bytes. *)
Fixpoint take (n : nat) (s : string) : string :=
  match n, s with
  | S n', String c t => String c (take n' t)
  | _, _ => EmptyString
  end.

Fixpoint drop (n : nat) (s : string) : string :=
  match n, s with
  | S n', String _ t => drop n' t
  | _, _ => s
  end.

Definition is_ascii_char (c : ascii) : bool := (nat_of_ascii c <? 128)%nat.

Fixpoint is_ascii (s : string) : bool :=
  match s with
  | EmptyString => true
  | String c t => is_ascii_char c && is_ascii t
  end.

(** The number of bytes of the character that starts with the byte [c]. *)
Definition char_width (c : ascii) : nat :=
  let n := nat_of_ascii c in
  if (n <? 192)%nat then 1
  else if (n <? 224)%nat then 2
  else if (n <? 240)%nat then 3
  else 4.

(** The first character of a text, and what follows it. *)
Definition next_char (s : string) : option (string * string) :=
  match s with
  | EmptyString => None
  | String c _ =>
      let w := char_width c in
      if (w <=? String.length s)%nat then Some (take w s, drop w s) else None
  end.

(** [c] is exactly one character. *)
Definition one_char (c : string) : bool :=
  match next_char c with
  | Some (_, EmptyString) => true
  | _ => false
  end.

(** The functions of the interpreter that the sources call on text.  [F] is
    the type of Python's floats. *)
Record Builtins (F : Type) : Type :=
  { str_isdigit : string -> bool;       (* s.isdigit() *)
    str_lower : string -> string;       (* s.lower() *)
    str_int : string -> result Z;       (* int(s) *)
    str_float : string -> result F;     (* float(s) *)
    literal : Q -> F;                   (* the float that a decimal literal denotes *)
    re_digit : string -> bool }.        (* \d, asked of one character *)

Arguments str_isdigit {F} _ _.
Arguments str_lower {F} _ _.
Arguments str_int {F} _ _.
Arguments str_float {F} _ _.
Arguments literal {F} _ _.
Arguments re_digit {F} _ _.

(** The interpreter on ASCII text, with exact rationals for floats. *)
Definition reference : Builtins Q :=
  {| str_isdigit := isdigit;
     str_lower := lower;
     str_int := int;
     str_float := float;
     literal := fun q => q;
     re_digit := fun ch =>
       match ch with
       | String c EmptyString => is_digit c
       | _ => false
       end |}.

(** What is assumed of the interpreter where a property depends on it:
    on ASCII text of at most 4300 characters (the default limit of [int] on
    the number of digits) it computes what [reference] computes, and [int]
    raises nothing but [ValueError]. *)
Definition agrees_on_ascii {F : Type} (B : Builtins F) : Prop :=
  forall s, is_ascii s = true ->
    str_isdigit B s = isdigit s /\
    str_lower B s = lower s /\
    ((String.length s <= 4300)%nat -> str_int B s = int s).

Definition int_raises_ValueError_only {F : Type} (B : Builtins F) : Prop :=
  forall s e, str_int B s = Raise e -> e = ValueError.

(** ** [re.match] for patterns that are sequences of one-character atoms *)

Inductive atom : Type :=
| Digit               (* \d *)
| Lit (c : ascii).    (* a literal ASCII character *)

Definition atom_matches {F : Type} (B : Builtins F) (a : atom) (ch : string) : bool :=
  match a with
  | Digit => re_digit B ch
  | Lit l => String.eqb ch (String l EmptyString)
  end.

(** [re.match(p, s)]: the pattern matches at the start of [s]; what follows
    the match is not inspected. *)
Fixpoint re_match {F : Type} (B : Builtins F) (p : list atom) (s : string) : bool :=
  match p with
  | [] => true
  | a :: p' =>
      match next_char s with
      | Some (ch, rest) => atom_matches B a ch && re_match B p' rest
      | None => false
      end
  end.

(** The anchored pattern [^p$] on a text without line breaks: the whole of
    [s] is matched. *)
Fixpoint re_fullmatch {F : Type} (B : Builtins F) (p : list atom) (s : string) : bool :=
  match p with
  | [] => match s with EmptyString => true | _ => false end
  | a :: p' =>
      match next_char s with
      | Some (ch, rest) => atom_matches B a ch && re_fullmatch B p' rest
      | None => false
      end
  end.

End Py.

Notation "x <- c1 ;; c2" := (Py.bind c1 (fun x => c2))
  (at level 61, c1 at next level, right associativity).

(* ================================================================== *)
(** * ml_predictions.py *)
(* ================================================================== *)

Module MlPredictions.
Import Py.
Local Open Scope string_scope.
Local Open Scope Q_scope.

Definition team_strengths : dict Q :=
  [ ("Manchester United", 0.85);
    ("Manchester City", 0.9);
    ("Chelsea", 0.85);
    ("Arsenal", 0.82);
    ("Liverpool", 0.87);
    ("Tottenham", 0.8);
    ("Leicester", 0.75);
    ("Wolves", 0.7);
    ("Everton", 0.72);
    ("West Ham", 0.71);
    ("Barcelona", 0.89);
    ("Real Madrid", 0.9);
    ("Atletico Madrid", 0.86);
    ("Sevilla", 0.78);
    ("Valencia", 0.75);
    ("UNKNOWN", 0.5) ].

(** The results of the three successive calls of
    [random.uniform(-0.05, 0.05)] in one call of the predictor. *)
Record Draws : Type := { u_home : Q; u_draw : Q; u_away : Q }.

Definition in_range (u : Draws) : Prop :=
  (- 0.05 <= u_home u <= 0.05) /\
  (- 0.05 <= u_draw u <= 0.05) /\
  (- 0.05 <= u_away u <= 0.05).

Inductive outcome : Type := home_win | draw | away_win.

(** The [probabilities] dict, keys in insertion order. *)
Record Probabilities : Type :=
  { p_home_win : Q; p_draw : Q; p_away_win : Q }.

Record Prediction : Type :=
  { most_likely_outcome : outcome;
    outcome_text : string;
    confidence : Q;
    probabilities : Probabilities }.

(** [team_strengths.get(team, team_strengths["UNKNOWN"])] *)
Definition strength (team : string) : result Q :=
  unknown <- subscript team_strengths "UNKNOWN" ;;
  Ok (get_default team_strengths team unknown).

(** Lines 54-65: home advantage, and the scaling that keeps both base
    probabilities at most 1. *)
Definition base_probs_from (home_strength away_strength : Q) : result (Q * Q) :=
  let home_advantage := 0.1 in
  let base_home_prob := home_strength + home_advantage in
  let base_away_prob := away_strength in
  let max_prob := max base_home_prob base_away_prob in
  if Qlt_le_dec 1 max_prob then
    base_home_prob' <- div base_home_prob max_prob ;;
    base_away_prob' <- div base_away_prob max_prob ;;
    Ok (base_home_prob', base_away_prob')
  else Ok (base_home_prob, base_away_prob).

(** Lines 50-65. *)
Definition base_probs (home_team away_team : string) : result (Q * Q) :=
  home_strength <- strength home_team ;;
  away_strength <- strength away_team ;;
  base_probs_from home_strength away_strength.

(** The guard of line 71, [odds and all(odds.get(k) is not None for k in
    ["home", "draw", "away"])], together with the three values it lets
    through. *)
Definition usable_odds (odds : option (dict (option Q))) : option (Q * Q * Q) :=
  match odds with
  | None => None
  | Some d =>
      match get d "home", get d "draw", get d "away" with
      | Some h, Some dr, Some a => Some (h, dr, a)
      | _, _, _ => None
      end
  end.

(** Lines 67-91: the three probabilities before the first normalisation. *)
Definition blend (home_team away_team : string)
    (odds : option (dict (option Q))) : result (Q * Q * Q) :=
  bases <- base_probs home_team away_team ;;
  let '(base_home_prob, base_away_prob) := bases in
  let draw_factor := 1 - abs (base_home_prob - base_away_prob) in
  match usable_odds odds with
  | Some (odds_home, odds_draw, odds_away) =>
      odds_home_prob <- div 1 odds_home ;;
      odds_draw_prob <- div 1 odds_draw ;;
      odds_away_prob <- div 1 odds_away ;;
      let total_odds_prob := odds_home_prob + odds_draw_prob + odds_away_prob in
      odds_home_prob' <- div odds_home_prob total_odds_prob ;;
      odds_draw_prob' <- div odds_draw_prob total_odds_prob ;;
      odds_away_prob' <- div odds_away_prob total_odds_prob ;;
      let home_win_prob := 0.7 * base_home_prob + 0.3 * odds_home_prob' in
      let draw_prob := 0.7 * (draw_factor * 0.5) + 0.3 * odds_draw_prob' in
      let away_win_prob := 0.7 * base_away_prob + 0.3 * odds_away_prob' in
      Ok (home_win_prob, draw_prob, away_win_prob)
  | None =>
      let home_win_prob := base_home_prob in
      let draw_prob := draw_factor * 0.5 in
      let away_win_prob := base_away_prob in
      Ok (home_win_prob, draw_prob, away_win_prob)
  end.

(** Lines 94-97 and again 105-108: divide the three values by their sum. *)
Definition normalize (p : Q * Q * Q) : result (Q * Q * Q) :=
  let '(home_win_prob, draw_prob, away_win_prob) := p in
  let total_prob := home_win_prob + draw_prob + away_win_prob in
  home_win_prob' <- div home_win_prob total_prob ;;
  draw_prob' <- div draw_prob total_prob ;;
  away_win_prob' <- div away_win_prob total_prob ;;
  Ok (home_win_prob', draw_prob', away_win_prob').

(** Lines 50-97: the deterministic part of the prediction. *)
Definition deterministic_probs (home_team away_team : string)
    (odds : option (dict (option Q))) : result (Q * Q * Q) :=
  p <- blend home_team away_team odds ;;
  normalize p.

(** [max(0, min(1, x))] *)
Definition clamp (x : Q) : Q := max 0 (min 1 x).

(** Lines 100-102. *)
Definition perturb (p : Q * Q * Q) (u : Draws) : Q * Q * Q :=
  let '(home_win_prob, draw_prob, away_win_prob) := p in
  (clamp (home_win_prob + u_home u),
   clamp (draw_prob + u_draw u),
   clamp (away_win_prob + u_away u)).

(** [max(probabilities, key=probabilities.get)]: the first key, in insertion
    order, whose value is maximal. *)
Definition argmax (p : Probabilities) : outcome :=
  let best := home_win in
  let best_val := p_home_win p in
  let '(best, best_val) :=
    if Qlt_le_dec best_val (p_draw p) then (draw, p_draw p) else (best, best_val) in
  let '(best, best_val) :=
    if Qlt_le_dec best_val (p_away_win p) then (away_win, p_away_win p)
    else (best, best_val) in
  best.

Definition probability_of (p : Probabilities) (o : outcome) : Q :=
  match o with
  | home_win => p_home_win p
  | draw => p_draw p
  | away_win => p_away_win p
  end.

Definition predict_match_outcome (home_team away_team : string)
    (odds : option (dict (option Q))) (u : Draws) : result Prediction :=
  p <- deterministic_probs home_team away_team odds ;;
  q <- normalize (perturb p u) ;;
  let '(home_win_prob, draw_prob, away_win_prob) := q in
  let probabilities :=
    {| p_home_win := round home_win_prob 3;
       p_draw := round draw_prob 3;
       p_away_win := round away_win_prob 3 |} in
  let most_likely := argmax probabilities in
  let confidence := probability_of probabilities most_likely in
  let outcome_text :=
    match most_likely with
    | home_win => home_team ++ " Win"
    | draw => "Draw"
    | away_win => away_team ++ " Win"
    end in
  Ok {| most_likely_outcome := most_likely;
        outcome_text := outcome_text;
        confidence := round (confidence * 100) 1;
        probabilities := probabilities |}.

End MlPredictions.

(* ================================================================== *)
(** * app.py *)
(* ================================================================== *)

Module App.
Import Py.
Local Open Scope string_scope.
Local Open Scope Z_scope.

(** One entry of the list returned by [scrape_sportpesa]; the key ["match"]
    is the field [match_]. *)
Record Match (F : Type) : Type :=
  { id : Z;
    match_ : string;
    teams : string * string;
    time : string;
    full_time_odds : dict (option F);
    double_chance : dict (option F);
    over_under : dict (option F);
    btts : dict (option F) }.

Arguments Build_Match {F} _ _ _ _ _ _ _ _.
Arguments id {F} _.
Arguments match_ {F} _.
Arguments teams {F} _.
Arguments time {F} _.
Arguments full_time_odds {F} _.
Arguments double_chance {F} _.
Arguments over_under {F} _.
Arguments btts {F} _.

(** The parsed page, seen through the selectors the scraper applies to it:
    for each selector the [get_text(strip=True)] of the selected elements. *)
Record Soup : Type :=
  { event_team : list string;       (* div.event-team.ng-binding *)
    span : list string;             (* span.ng-binding *)
    event_selection : list string;  (* div.event-selection > div.ng-binding *)
    data_qa : string -> list string (* div[data-qa="..."] > div.ng-binding *) }.

Section Scraper.
Context {F : Type} (B : Builtins F).

(** The float literals of lines 186-220. *)
Definition generate_mock_data : list (Match F) :=
  let lit := literal B in
  [ {| id := 0;
       match_ := "Manchester United vs Liverpool";
       teams := ("Manchester United", "Liverpool");
       time := "22/06/25 - 20:00";
       full_time_odds :=
         [("home", Some (lit 2.45%Q)); ("draw", Some (lit 3.40%Q));
          ("away", Some (lit 2.85%Q))];
       double_chance :=
         [("1X", Some (lit 1.45%Q)); ("X2", Some (lit 1.50%Q));
          ("12", Some (lit 1.30%Q))];
       over_under := [("over", Some (lit 1.85%Q)); ("under", Some (lit 1.95%Q))];
       btts := [("yes", Some (lit 1.70%Q)); ("no", Some (lit 2.10%Q))] |};
    {| id := 1;
       match_ := "Arsenal vs Chelsea";
       teams := ("Arsenal", "Chelsea");
       time := "23/06/25 - 15:30";
       full_time_odds :=
         [("home", Some (lit 2.20%Q)); ("draw", Some (lit 3.20%Q));
          ("away", Some (lit 3.40%Q))];
       double_chance :=
         [("1X", Some (lit 1.35%Q)); ("X2", Some (lit 1.65%Q));
          ("12", Some (lit 1.40%Q))];
       over_under := [("over", Some (lit 1.90%Q)); ("under", Some (lit 1.90%Q))];
       btts := [("yes", Some (lit 1.75%Q)); ("no", Some (lit 2.05%Q))] |};
    {| id := 2;
       match_ := "Barcelona vs Real Madrid";
       teams := ("Barcelona", "Real Madrid");
       time := "24/06/25 - 21:00";
       full_time_odds :=
         [("home", Some (lit 2.30%Q)); ("draw", Some (lit 3.50%Q));
          ("away", Some (lit 2.90%Q))];
       double_chance :=
         [("1X", Some (lit 1.40%Q)); ("X2", Some (lit 1.55%Q));
          ("12", Some (lit 1.30%Q))];
       over_under := [("over", Some (lit 1.80%Q)); ("under", Some (lit 2.00%Q))];
       btts := [("yes", Some (lit 1.65%Q)); ("no", Some (lit 2.20%Q))] |} ].

(** ** The extraction, lines 119-179 of [scrape_sportpesa]

    [soup] is the page parsed on line 104 or on line 116.  Which of the two
    reaches this block, and what becomes of an exception raised in it,
    depends on where the [try] of the handler of lines 181-184 belongs: the
    listing has none, and the block is embedded without the handler. *)

(** Line 120:
    [[(teams[i], teams[i+1]) for i in range(0, len(teams) - 1, 2)]] *)
Definition team_pairs_of (teams : list string) : result (list (string * string)) :=
  mapM (fun i => a <- getitem teams i ;; b <- getitem teams (i + 1) ;; Ok (a, b))
       (range3 0 (len teams - 1) 2).

(** Line 121:
    [[f"{teams[i]} vs {teams[i+1]}" for i in range(0, len(teams) - 1, 2)]] *)
Definition matches_of (teams : list string) : result (list string) :=
  mapM (fun i =>
          a <- getitem teams i ;; b <- getitem teams (i + 1) ;;
          Ok (a ++ " vs " ++ b)%string)
       (range3 0 (len teams - 1) 2).

(** The pattern of line 125, [\d{2}/\d{2}/\d{2} - \d{2}:\d{2}]. *)
Definition time_pattern : list atom :=
  [ Digit; Digit; Lit "/"; Digit; Digit; Lit "/"; Digit; Digit;
    Lit " "; Lit "-"; Lit " ";
    Digit; Digit; Lit ":"; Digit; Digit ].

(** Line 125: [[t for t in raw_times if re.match(pattern, t)]] *)
Definition match_times_of (raw_times : list string) : list string :=
  filter (re_match B time_pattern) raw_times.

(** Lines 132-136: the texts that are digits once the first dot is removed. *)
Definition full_time_raw_of (selected : list string) : list string :=
  filter (fun t => str_isdigit B (remove_first "." t)) selected.

(** Line 137:
    [[full_time_raw[i:i+3] for i in range(0, len(full_time_raw), 3)]] *)
Definition full_time_grouped_of (full_time_raw : list string) : list (list string) :=
  map (fun i => slice full_time_raw i (i + 3)) (range3 0 (len full_time_raw) 3).

(** Lines 128-129, the local helper [get_odds(selector)]. *)
Definition get_odds_texts (soup : Soup) (selector : string) : list string :=
  data_qa soup selector.

(** [float(xs[i]) if i < len(xs) else None] *)
Definition float_at (xs : list string) (i : Z) : result (option F) :=
  if i <? len xs then
    s <- getitem xs i ;; q <- str_float B s ;; Ok (Some q)
  else Ok None.

(** [float(g[i][k]) if i < len(g) and len(g[i]) >= k + 1 else None] *)
Definition full_time_at (g : list (list string)) (i k : Z) : result (option F) :=
  if i <? len g then
    gi <- getitem g i ;;
    if k + 1 <=? len gi then
      s <- getitem gi k ;; q <- str_float B s ;; Ok (Some q)
    else Ok None
  else Ok None.

(** The lists extracted from the page, lines 119-148. *)
Record Extracted : Type :=
  { team_pairs : list (string * string);
    matches : list string;
    match_times : list string;
    full_time_grouped : list (list string);
    dc_1x : list string;
    dc_x2 : list string;
    dc_12 : list string;
    ou_over : list string;
    ou_under : list string;
    btts_yes : list string;
    btts_no : list string }.

Definition extract_lists (soup : Soup) : result Extracted :=
  let teams := event_team soup in
  team_pairs <- team_pairs_of teams ;;
  matches <- matches_of teams ;;
  let raw_times := span soup in
  let match_times := match_times_of raw_times in
  let full_time_raw := full_time_raw_of (event_selection soup) in
  let full_time_grouped := full_time_grouped_of full_time_raw in
  Ok {| team_pairs := team_pairs;
        matches := matches;
        match_times := match_times;
        full_time_grouped := full_time_grouped;
        dc_1x := get_odds_texts soup "prematch-event-selections-1x";
        dc_x2 := get_odds_texts soup "prematch-event-selections-x2";
        dc_12 := get_odds_texts soup "prematch-event-selections-12";
        ou_over := get_odds_texts soup "prematch-event-selections-over";
        ou_under := get_odds_texts soup "prematch-event-selections-under";
        btts_yes := get_odds_texts soup "prematch-event-selections-yes";
        btts_no := get_odds_texts soup "prematch-event-selections-no" |}.

(** Lines 153-176: the record built for index [i]. *)
Definition match_data (x : Extracted) (i : Z) : result (Match F) :=
  label <- getitem (matches x) i ;;
  pair <- getitem (team_pairs x) i ;;
  when <- (if i <? len (match_times x) then getitem (match_times x) i else Ok "") ;;
  ft_home <- full_time_at (full_time_grouped x) i 0 ;;
  ft_draw <- full_time_at (full_time_grouped x) i 1 ;;
  ft_away <- full_time_at (full_time_grouped x) i 2 ;;
  v_1x <- float_at (dc_1x x) i ;;
  v_x2 <- float_at (dc_x2 x) i ;;
  v_12 <- float_at (dc_12 x) i ;;
  v_over <- float_at (ou_over x) i ;;
  v_under <- float_at (ou_under x) i ;;
  v_yes <- float_at (btts_yes x) i ;;
  v_no <- float_at (btts_no x) i ;;
  Ok {| id := i;
        match_ := label;
        teams := pair;
        time := when;
        full_time_odds := [("home", ft_home); ("draw", ft_draw); ("away", ft_away)];
        double_chance := [("1X", v_1x); ("X2", v_x2); ("12", v_12)];
        over_under := [("over", v_over); ("under", v_under)];
        btts := [("yes", v_yes); ("no", v_no)] |}.

(** The seven secondary-market lists, in the order of lines 140-148, and the
    fields of a record that are filled from them, in the same order. *)
Definition market_lists (x : Extracted) : list (list string) :=
  [ dc_1x x; dc_x2 x; dc_12 x; ou_over x; ou_under x; btts_yes x; btts_no x ].

Definition market_fields (m : Match F) : list (option F) :=
  [ get (double_chance m) "1X"; get (double_chance m) "X2";
    get (double_chance m) "12";
    get (over_under m) "over"; get (over_under m) "under";
    get (btts m) "yes"; get (btts m) "no" ].

(** The texts that the record of index [i] passes to [float], lines 159-174:
    the first three tokens of group [i] and entry [i] of each
    secondary-market list. *)
Definition converted (x : Extracted) (i : nat) (s : string) : Prop :=
  (exists gi k, nth_error (full_time_grouped x) i = Some gi /\ (k < 3)%nat /\
                nth_error gi k = Some s) \/
  (exists xs, In xs (market_lists x) /\ nth_error xs i = Some s).

(** The number of records, line 152. *)
Definition result_count (x : Extracted) : Z :=
  min3 (len (matches x)) (len (full_time_grouped x)) (len (match_times x)).

(** Lines 151-177: [results = []], then one [results.append(match_data)] per
    index of the range. *)
Fixpoint build_results (x : Extracted) (indices : list Z) (results : list (Match F))
  : result (list (Match F)) :=
  match indices with
  | [] => Ok results
  | i :: rest =>
      m <- match_data x i ;;
      build_results x rest (results ++ [m])
  end.

(** Lines 119-179: the lists, the loop and [return results]. *)
Definition extract (soup : Soup) : result (list (Match F)) :=
  x <- extract_lists soup ;;
  build_results x (range (result_count x)) [].

(** ** The HTTP handlers

    Each handler calls [scrape_sportpesa()] once.  The argument [scrape] is
    the outcome of that call: the exception it raised, or the value it
    returned, a list or [None]. *)

Inductive Json : Type :=
| JData (odds_data : option (list (Match F)))   (* jsonify of a list, or null *)
| JMatch (m : Match F)
| JError (message : string)                     (* {"error": message} *)
| JException (e : exn).                         (* {"error": str(e)} *)

Record Response : Type := { body : Json; status : Z }.

(** [GET /api/odds], lines 29-36. *)
Definition get_odds (scrape : result (option (list (Match F)))) : Response :=
  let attempt : result Response :=
    odds_data <- scrape ;;
    Ok {| body := JData odds_data; status := 200 |} in
  match attempt with
  | Ok r => r
  | Raise e => {| body := JException e; status := 500 |}
  end.

(** [len(odds_data)] and iteration over [odds_data], which raise on [None]. *)
Definition as_list (odds_data : option (list (Match F))) : result (list (Match F)) :=
  match odds_data with
  | Some l => Ok l
  | None => Raise TypeError
  end.

(** [GET /api/odds/<match_id>], lines 38-57. *)
Definition get_match_odds (scrape : result (option (list (Match F))))
    (match_id : string) : Response :=
  let attempt : result Response :=
    odds_data <- scrape ;;
    match str_int B match_id with
    | Ok match_id =>
        l <- as_list odds_data ;;
        if (0 <=? match_id) && (match_id <? len l) then
          m <- getitem l match_id ;;
          Ok {| body := JMatch m; status := 200 |}
        else Ok {| body := JError "Match not found"; status := 404 |}
    | Raise ValueError =>
        l <- as_list odds_data ;;
        match find (fun m => contains (str_lower B match_id)
                                      (str_lower B (match_ m))) l with
        | Some m => Ok {| body := JMatch m; status := 200 |}
        | None => Ok {| body := JError "Match not found"; status := 404 |}
        end
    | Raise e => Raise e
    end in
  match attempt with
  | Ok r => r
  | Raise e => {| body := JException e; status := 500 |}
  end.

End Scraper.

Arguments JData {F} _.
Arguments JMatch {F} _.
Arguments JError {F} _.
Arguments JException {F} _.
Arguments body {F} _.
Arguments status {F} _.
Arguments Build_Response {F} _ _.
Arguments Json : clear implicits.
Arguments Response : clear implicits.

End App.

(* ================================================================== *)
(** * app.py, the predictions endpoint *)
(* ================================================================== *)

Module Endpoints.
Import Py App MlPredictions.
Local Open Scope string_scope.
Local Open Scope Z_scope.






End Endpoints.

(* ================================================================== *)
(** * Sample pages, odds and draws *)
(* ================================================================== *)

Module Samples.
Import Py App.
Local Open Scope string_scope.

(** One complete fixture row followed by an unpaired team name. *)
Definition page_one_row : Soup :=
  {| event_team := ["Gor Mahia"; "AFC Leopards"; "Tusker"];
     span := ["22/06/25 - 20:00"; "Football"];
     event_selection := ["2.45"; "3.40"; "2.85"];
     data_qa := fun selector =>
       if String.eqb selector "prematch-event-selections-1x" then ["1.45"]
       else [] |}.

(** The same row with a dash in place of the 1X price. *)
Definition page_dash_price : Soup :=
  {| event_team := ["Gor Mahia"; "AFC Leopards"];
     span := ["22/06/25 - 20:00"];
     event_selection := ["2.45"; "3.40"; "2.85"];
     data_qa := fun selector =>
       if String.eqb selector "prematch-event-selections-1x" then ["-"]
       else [] |}.

(** A page on which no selector finds anything, as served to a client that
    does not run the page's scripts. *)
Definition page_empty : Soup :=
  {| event_team := []; span := []; event_selection := [];
     data_qa := fun _ => [] |}.

(** Draws that leave the probabilities as they are, and draws at the ends
    of the interval. *)
Definition calm : MlPredictions.Draws :=
  {| MlPredictions.u_home := 0; MlPredictions.u_draw := 0;
     MlPredictions.u_away := 0 |}.

Definition gusty : MlPredictions.Draws :=
  {| MlPredictions.u_home := 0.05; MlPredictions.u_draw := - 0.05;
     MlPredictions.u_away := 0.05 |}.

(** An odds dict with the three full-time prices. *)
Definition prices (h d a : Q) : option (dict (option Q)) :=
  Some [("home", Some h); ("draw", Some d); ("away", Some a)].

(** A scraped record whose draw price is missing. *)
Definition no_draw_price : option (dict (option Q)) :=
  Some [("home", Some 2.45%Q); ("draw", None); ("away", Some 2.85%Q)].

End Samples.

Module MoreSamples.
Import Py App MlPredictions.
Local Open Scope string_scope.


(** Two rows, the second with a single price. *)
Definition page_two_rows : Soup :=
  {| event_team := ["Gor Mahia"; "AFC Leopards"; "Tusker"; "Ulinzi Stars"];
     span := ["22/06/25 - 20:00"; "Highlights"; "23/06/25 - 15:30"];
     event_selection := ["2.45"; "3.40"; "2.85"; "Draw"; "1.90"];
     data_qa := fun _ => [] |}.

(** A page with a single team name beside a full row of prices. *)
Definition page_one_name : Soup :=
  {| event_team := ["Tusker"];
     span := ["22/06/25 - 20:00"];
     event_selection := ["2.45"; "3.40"; "2.85"];
     data_qa := fun _ => [] |}.


End MoreSamples.

(* ================================================================== *)
(** * Properties *)
(* ================================================================== *)

Import Py.

(** ** Lists, ranges and loops *)

Section ListFacts.
Context {A B : Type}.

Lemma getitem_Ok (xs : list A) (i : Z) (x : A) :
  0 <= i -> nth_error xs (Z.to_nat i) = Some x -> getitem xs i = Ok x.
Proof.
  intros Hi Hn. unfold getitem.
  destruct (i <? 0) eqn:E; [apply Z.ltb_lt in E; lia|].
  rewrite E, Hn. reflexivity.
Qed.

Lemma getitem_inv (xs : list A) (i : Z) (x : A) :
  0 <= i -> getitem xs i = Ok x -> nth_error xs (Z.to_nat i) = Some x.
Proof.
  intros Hi. unfold getitem.
  destruct (i <? 0) eqn:E; [apply Z.ltb_lt in E; lia|].
  rewrite E. destruct (nth_error xs (Z.to_nat i)); congruence.
Qed.

Lemma getitem_in_range (xs : list A) (i : Z) :
  0 <= i < len xs -> exists x, getitem xs i = Ok x /\ nth_error xs (Z.to_nat i) = Some x.
Proof.
  intros Hi. destruct (nth_error xs (Z.to_nat i)) as [x|] eqn:E.
  - exists x. split; [apply getitem_Ok; [lia | exact E] | reflexivity].
  - apply nth_error_None in E. unfold len in Hi. lia.
Qed.

Lemma mapM_Forall2 (f : A -> result B) (xs : list A) :
  forall ys, mapM f xs = Ok ys -> Forall2 (fun x y => f x = Ok y) xs ys.
Proof.
  induction xs as [|x t IH]; simpl; intros ys H.
  - inversion H. constructor.
  - destruct (f x) as [y|] eqn:Ef; [|discriminate].
    destruct (mapM f t) as [ys'|]; [|discriminate].
    inversion H; subst. constructor; auto.
Qed.

Lemma mapM_total (f : A -> result B) (xs : list A) :
  (forall x, In x xs -> exists y, f x = Ok y) -> exists ys, mapM f xs = Ok ys.
Proof.
  induction xs as [|x t IH]; simpl; intros H.
  - eexists; reflexivity.
  - destruct (H x (or_introl eq_refl)) as [y Hy]. rewrite Hy.
    destruct IH as [ys Hys]; [intros; apply H; auto|].
    rewrite Hys. eexists; reflexivity.
Qed.

Lemma Forall2_nth_left (R : A -> B -> Prop) (xs : list A) (ys : list B) :
  Forall2 R xs ys ->
  forall i x, nth_error xs i = Some x -> exists y, nth_error ys i = Some y /\ R x y.
Proof.
  induction 1 as [|x0 y0 xs ys HR _ IH]; intros [|i] x Hx; simpl in *; try discriminate.
  - inversion Hx; subst. eauto.
  - eauto.
Qed.

Lemma Forall2_nth_right (R : A -> B -> Prop) (xs : list A) (ys : list B) :
  Forall2 R xs ys ->
  forall i y, nth_error ys i = Some y -> exists x, nth_error xs i = Some x /\ R x y.
Proof.
  induction 1 as [|x0 y0 xs ys HR _ IH]; intros [|i] y Hy; simpl in *; try discriminate.
  - inversion Hy; subst. eauto.
  - eauto.
Qed.

End ListFacts.

Lemma range3_length (a b s : Z) :
  List.length (range3 a b s) = Z.to_nat ((b - a + s - 1) / s).
Proof. unfold range3. rewrite length_map, length_seq. reflexivity. Qed.

Lemma range3_nth (a b s : Z) (i : nat) (z : Z) :
  nth_error (range3 a b s) i = Some z -> z = a + s * Z.of_nat i.
Proof.
  unfold range3. rewrite nth_error_map, nth_error_seq.
  destruct (i <? _)%nat; simpl; intros H; inversion H. reflexivity.
Qed.

Lemma range3_In (a b s : Z) (z : Z) :
  In z (range3 a b s) ->
  exists i, z = a + s * Z.of_nat i /\ (i < Z.to_nat ((b - a + s - 1) / s))%nat.
Proof.
  intros H. apply In_nth_error in H. destruct H as [i Hi].
  exists i. split; [eapply range3_nth; eauto|].
  rewrite <- range3_length. apply nth_error_Some. congruence.
Qed.

Lemma range_length (n : Z) : List.length (range n) = Z.to_nat n.
Proof.
  unfold range. rewrite range3_length. f_equal.
  rewrite Z.div_1_r. lia.
Qed.

Lemma range_nth (n : Z) (i : nat) (z : Z) :
  nth_error (range n) i = Some z -> z = Z.of_nat i.
Proof. intros H. apply range3_nth in H. lia. Qed.

(** Inversion of a successful [bind]. *)
Lemma bind_Ok {A B : Type} (r : result A) (k : A -> result B) (b : B) :
  bind r k = Ok b -> exists a, r = Ok a /\ k a = Ok b.
Proof. destruct r; simpl; [eauto | discriminate]. Qed.

Lemma bind_Ok_l {A B : Type} (a : A) (k : A -> result B) : bind (Ok a) k = k a.
Proof. reflexivity. Qed.

Ltac bind_inv H :=
  let a := fresh "v" in
  let Ha := fresh "Hv" in
  apply bind_Ok in H; destruct H as [a [Ha H]].

(** ** Pairing of the team names (lines 120-121) *)

Section Pairing.
Context {C : Type} (g : string -> string -> C).

Lemma pairing_steps (teams : list string) :
  List.length (range3 0 (len teams - 1) 2) = Nat.div2 (List.length teams).
Proof.
  rewrite range3_length. unfold len.
  replace (Z.of_nat (List.length teams) - 1 - 0 + 2 - 1)
    with (Z.of_nat (List.length teams)) by lia.
  rewrite Nat.div2_div. rewrite <- (Nat2Z.id (List.length teams / 2)).
  f_equal. rewrite Nat2Z.inj_div. reflexivity.
Qed.

Lemma pairing_ok (teams : list string) :
  exists ys,
    mapM (fun i => a <- getitem teams i ;; b <- getitem teams (i + 1) ;; Ok (g a b))
         (range3 0 (len teams - 1) 2) = Ok ys /\
    List.length ys = Nat.div2 (List.length teams) /\
    forall i, (i < Nat.div2 (List.length teams))%nat ->
      exists h a,
        nth_error teams (2 * i) = Some h /\
        nth_error teams (2 * i + 1) = Some a /\
        nth_error ys i = Some (g h a).
Proof.
  assert (Hdiv : (2 * Nat.div2 (List.length teams) <= List.length teams)%nat).
  { rewrite Nat.div2_div. apply Nat.Div0.mul_div_le. }
  assert (Hstep : forall j, (j < Nat.div2 (List.length teams))%nat ->
            exists h a,
              nth_error teams (2 * j) = Some h /\
              nth_error teams (2 * j + 1) = Some a /\
              (a <- getitem teams (0 + 2 * Z.of_nat j) ;;
               b <- getitem teams (0 + 2 * Z.of_nat j + 1) ;; Ok (g a b)) = Ok (g h a)).
  { intros j Hj.
    destruct (getitem_in_range teams (0 + 2 * Z.of_nat j)) as [h [Hh Hh']];
      [unfold len; lia|].
    destruct (getitem_in_range teams (0 + 2 * Z.of_nat j + 1)) as [a [Ha Ha']];
      [unfold len; lia|].
    exists h, a. repeat split.
    - rewrite <- Hh'. f_equal. lia.
    - rewrite <- Ha'. f_equal. lia.
    - rewrite Hh, Ha. reflexivity. }
  destruct (mapM_total
              (fun i => a <- getitem teams i ;; b <- getitem teams (i + 1) ;; Ok (g a b))
              (range3 0 (len teams - 1) 2)) as [ys Hys].
  { intros z Hz. apply range3_In in Hz. destruct Hz as [j [-> Hj]].
    rewrite <- range3_length, pairing_steps in Hj.
    destruct (Hstep j Hj) as [h [a [_ [_ H]]]]. eauto. }
  exists ys. split; [exact Hys|].
  pose proof (mapM_Forall2 _ _ _ Hys) as HF.
  split.
  - rewrite <- (Forall2_length HF). apply pairing_steps.
  - intros i Hi.
    destruct (Hstep i Hi) as [h [a [H1 [H2 H3]]]].
    exists h, a. repeat split; auto.
    destruct (nth_error (range3 0 (len teams - 1) 2) i) as [z|] eqn:Ez.
    + pose proof (range3_nth _ _ _ _ _ Ez) as ->.
      destruct (Forall2_nth_left _ _ _ HF _ _ Ez) as [y [Hy Hfy]].
      cbv beta in Hfy. rewrite H3 in Hfy. inversion Hfy; subst. exact Hy.
    + apply nth_error_None in Ez. rewrite pairing_steps in Ez. lia.
Qed.

End Pairing.

(** ** The extracted lists and the result loop *)

Import App.

Lemma In_firstn {A : Type} (n : nat) (l : list A) (a : A) :
  In a (firstn n l) -> In a l.
Proof.
  intros H. rewrite <- (firstn_skipn n l). apply in_or_app. auto.
Qed.

Lemma In_skipn {A : Type} (n : nat) (l : list A) (a : A) :
  In a (skipn n l) -> In a l.
Proof.
  intros H. rewrite <- (firstn_skipn n l). apply in_or_app. auto.
Qed.

Lemma In_slice {A : Type} (l : list A) (i j : Z) (a : A) :
  In a (slice l i j) -> In a l.
Proof. unfold slice. intros H. eapply In_skipn, In_firstn, H. Qed.

Section ScraperFacts.
Context {F : Type} (B : Builtins F).

(** The lists are always obtained; the two comprehensions over the team
    names yield one entry per complete pair. *)
Lemma extract_lists_ok (soup : Soup) :
  exists x,
    extract_lists B soup = Ok x /\
    List.length (team_pairs x) = Nat.div2 (List.length (event_team soup)) /\
    List.length (matches x) = Nat.div2 (List.length (event_team soup)) /\
    (forall i, (i < Nat.div2 (List.length (event_team soup)))%nat ->
       exists h a,
         nth_error (event_team soup) (2 * i) = Some h /\
         nth_error (event_team soup) (2 * i + 1) = Some a /\
         nth_error (team_pairs x) i = Some (h, a)) /\
    match_times x = match_times_of B (span soup) /\
    full_time_grouped x = full_time_grouped_of (full_time_raw_of B (event_selection soup)).
Proof.
  destruct (pairing_ok (fun a b => (a, b)) (event_team soup)) as [ps [Hps [Lps Nps]]].
  destruct (pairing_ok (fun a b => (a ++ " vs " ++ b)%string) (event_team soup))
    as [ls [Hls [Lls _]]].
  eexists. split.
  - unfold extract_lists, team_pairs_of, matches_of.
    rewrite Hps, Hls. reflexivity.
  - simpl. repeat split; auto.
Qed.

Lemma build_results_Forall2 (x : Extracted) (indices : list Z) :
  forall results ms,
    build_results B x indices results = Ok ms ->
    exists new, ms = results ++ new /\
                Forall2 (fun i m => match_data B x i = Ok m) indices new.
Proof.
  induction indices as [|i rest IH]; simpl; intros results ms H.
  - inversion H; subst. exists []. rewrite app_nil_r. split; [reflexivity | constructor].
  - bind_inv H. cbv beta in H.
    destruct (IH _ _ H) as [new [-> HF]].
    exists (v :: new). rewrite <- app_assoc. split; [reflexivity|].
    constructor; assumption.
Qed.

(** [float(xs[i]) if i < len(xs) else None]: null exactly when the list has
    no entry at [i], the converted entry otherwise. *)
Lemma float_at_Ok (xs : list string) (i : nat) (v : option F) :
  float_at B xs (Z.of_nat i) = Ok v ->
  (v = None <-> (List.length xs <= i)%nat) /\
  (forall s, nth_error xs i = Some s -> exists q, str_float B s = Ok q /\ v = Some q).
Proof.
  unfold float_at, len. intros H.
  destruct (Z.of_nat i <? Z.of_nat (List.length xs)) eqn:E.
  - apply Z.ltb_lt in E.
    bind_inv H. bind_inv H. inversion H; subst.
    apply getitem_inv in Hv; [|lia]. rewrite Nat2Z.id in Hv.
    split.
    + split; [discriminate | lia].
    + intros s Hs. rewrite Hs in Hv. inversion Hv; subst. eauto.
  - apply Z.ltb_ge in E. inversion H; subst. split.
    + split; [lia | reflexivity].
    + intros s Hs. assert (nth_error xs i <> None) by congruence.
      apply nth_error_Some in H0. lia.
Qed.

(** What a successfully built record holds. *)
Lemma match_data_Ok (x : Extracted) (i : Z) (m : Match F) :
  match_data B x i = Ok m ->
  id m = i /\
  float_at B (dc_1x x) i = Ok (get (double_chance m) "1X") /\
  float_at B (dc_x2 x) i = Ok (get (double_chance m) "X2") /\
  float_at B (dc_12 x) i = Ok (get (double_chance m) "12") /\
  float_at B (ou_over x) i = Ok (get (over_under m) "over") /\
  float_at B (ou_under x) i = Ok (get (over_under m) "under") /\
  float_at B (btts_yes x) i = Ok (get (btts m) "yes") /\
  float_at B (btts_no x) i = Ok (get (btts m) "no").
Proof.
  unfold match_data. intros H.
  repeat (bind_inv H; cbv beta in H).
  inversion H; subst; clear H. simpl.
  repeat split; assumption.
Qed.

Lemma result_count_nat (x : Extracted) :
  Z.to_nat (result_count x) =
  Nat.min (Nat.min (List.length (matches x)) (List.length (full_time_grouped x)))
          (List.length (match_times x)).
Proof. unfold result_count, min3, len. lia. Qed.

Lemma extract_records (soup : Soup) (x : Extracted) (ms : list (Match F)) :
  extract_lists B soup = Ok x -> extract B soup = Ok ms ->
  List.length ms = Z.to_nat (result_count x) /\
  forall i m, nth_error ms i = Some m -> match_data B x (Z.of_nat i) = Ok m.
Proof.
  intros Hx H. unfold extract in H. rewrite Hx in H. simpl in H.
  apply build_results_Forall2 in H. destruct H as [new [-> HF]]. simpl.
  split.
  - rewrite <- (Forall2_length HF). apply range_length.
  - intros i m Hm.
    destruct (Forall2_nth_right _ _ _ HF _ _ Hm) as [z [Hz Hd]].
    apply range_nth in Hz. subst z. exact Hd.
Qed.

Lemma extract_ids (soup : Soup) (ms : list (Match F)) :
  extract B soup = Ok ms ->
  forall i m, nth_error ms i = Some m -> id m = Z.of_nat i.
Proof.
  intros H i m Hm.
  destruct (extract_lists_ok soup) as [x [Hx _]].
  destruct (extract_records soup x ms Hx H) as [_ Hd].
  apply Hd in Hm. apply match_data_Ok in Hm. tauto.
Qed.

Lemma extract_no_pairs (soup : Soup) :
  (List.length (event_team soup) < 2)%nat -> extract B soup = Ok [].
Proof.
  intros Hlen.
  destruct (extract_lists_ok soup) as [x [Hx [_ [Lm _]]]].
  unfold extract. rewrite Hx. simpl.
  assert (E : result_count x = 0).
  { assert (List.length (matches x) = 0%nat).
    { rewrite Lm.
      destruct (event_team soup) as [|a [|b l]]; simpl in *; try reflexivity; lia. }
    unfold result_count, min3, len. lia. }
  rewrite E. reflexivity.
Qed.

Lemma positions_NoDup (ms : list (Match F)) :
  (forall i m, nth_error ms i = Some m -> id m = Z.of_nat i) ->
  NoDup (map id ms).
Proof.
  intros H. apply NoDup_nth_error. intros i j Hi Hij.
  rewrite length_map in Hi.
  rewrite !nth_error_map in Hij.
  destruct (nth_error ms i) as [mi|] eqn:Ei;
    [|apply nth_error_None in Ei; lia].
  destruct (nth_error ms j) as [mj|] eqn:Ej; [|discriminate].
  simpl in Hij. inversion Hij as [Hid].
  rewrite (H _ _ Ei), (H _ _ Ej) in Hid. lia.
Qed.

Local Open Scope string_scope.
Local Open Scope Z_scope.

(** ** The grouping of line 137 *)

Lemma firstn_plus {A : Type} (n m : nat) (l : list A) :
  firstn (n + m) l = (firstn n l ++ firstn m (skipn n l))%list.
Proof.
  revert l. induction n as [|n IH]; intros l; simpl; [reflexivity|].
  destruct l as [|a l]; simpl.
  - destruct m; reflexivity.
  - rewrite IH. reflexivity.
Qed.
Lemma grouped_as_chunks (raw : list string) :
  full_time_grouped_of raw =
  map (fun j => firstn 3 (skipn (3 * j) raw)) (seq 0 ((List.length raw + 2) / 3)).
Proof.
  unfold full_time_grouped_of, range3. rewrite map_map.
  replace (Z.to_nat ((len raw - 0 + 3 - 1) / 3)) with ((List.length raw + 2) / 3)%nat.
  - apply map_ext. intros j. unfold slice. f_equal; [|f_equal]; lia.
  - unfold len. rewrite <- (Nat2Z.id ((List.length raw + 2) / 3)). f_equal.
    rewrite Nat2Z.inj_div. f_equal. lia.
Qed.
Lemma chunks_concat (raw : list string) (k : nat) :
  List.concat (map (fun j => firstn 3 (skipn (3 * j) raw)) (seq 0 k)) = firstn (3 * k) raw.
Proof.
  induction k as [|k IH]; [reflexivity|].
  rewrite seq_S, map_app, concat_app, IH. simpl List.concat. rewrite app_nil_r.
  replace (3 * S k)%nat with (3 * k + 3)%nat by lia.
  rewrite firstn_plus. reflexivity.
Qed.
Lemma grouped_nth (raw : list string) (i : nat) :
  (i < List.length (full_time_grouped_of raw))%nat ->
  nth_error (full_time_grouped_of raw) i = Some (firstn 3 (skipn (3 * i) raw)) /\
  (3 * i < List.length raw)%nat.
Proof.
  rewrite grouped_as_chunks, length_map, length_seq. intros Hi.
  rewrite nth_error_map, nth_error_seq.
  destruct (Nat.ltb_spec i ((List.length raw + 2) / 3)) as [_|H]; [|lia].
  split; [reflexivity|].
  pose proof (Nat.Div0.mul_div_le (List.length raw + 2) 3). lia.
Qed.

Lemma match_data_core (x : Extracted) (i : Z) (m : Match F) :
  match_data B x i = Ok m ->
  getitem (matches x) i = Ok (match_ m) /\
  getitem (team_pairs x) i = Ok (teams m) /\
  (if i <? len (match_times x) then getitem (match_times x) i else Ok "")
    = Ok (time m) /\
  full_time_at B (full_time_grouped x) i 0 = Ok (get (full_time_odds m) "home") /\
  full_time_at B (full_time_grouped x) i 1 = Ok (get (full_time_odds m) "draw") /\
  full_time_at B (full_time_grouped x) i 2 = Ok (get (full_time_odds m) "away").
Proof.
  unfold match_data. intros H.
  repeat (bind_inv H; cbv beta in H).
  inversion H; subst; clear H. simpl.
  repeat split; assumption.
Qed.
Lemma extracted_record (soup : Soup) (ms : list (Match F)) (i : nat) (m : Match F) :
  extract B soup = Ok ms -> nth_error ms i = Some m ->
  exists x,
    extract_lists B soup = Ok x /\
    match_data B x (Z.of_nat i) = Ok m /\
    (i < List.length (matches x))%nat /\
    (i < List.length (full_time_grouped x))%nat /\
    (i < List.length (match_times x))%nat.
Proof.
  intros He Hm.
  destruct (extract_lists_ok soup) as [x [Hx _]].
  destruct (extract_records soup x ms Hx He) as [Hlen Hd].
  exists x. split; [exact Hx|]. split; [apply Hd; exact Hm|].
  assert (Hi : (i < List.length ms)%nat) by (apply nth_error_Some; congruence).
  rewrite Hlen, result_count_nat in Hi. lia.
Qed.
Lemma extract_lists_labels (soup : Soup) (x : Extracted) :
  extract_lists B soup = Ok x ->
  forall i, (i < List.length (matches x))%nat ->
    exists h a,
      nth_error (event_team soup) (2 * i) = Some h /\
      nth_error (event_team soup) (2 * i + 1) = Some a /\
      nth_error (team_pairs x) i = Some (h, a) /\
      nth_error (matches x) i = Some (h ++ " vs " ++ a).
Proof.
  intros Hx i Hi.
  destruct (pairing_ok (fun a b => (a, b)) (event_team soup)) as [ps [Hps [Lps Nps]]].
  destruct (pairing_ok (fun a b => (a ++ " vs " ++ b)%string) (event_team soup))
    as [ls [Hls [Lls Nls]]].
  unfold extract_lists, team_pairs_of, matches_of in Hx.
  rewrite Hps, Hls in Hx. simpl in Hx. injection Hx as <-. simpl in *.
  rewrite Lls in Hi.
  destruct (Nps i Hi) as [h [a [H1 [H2 H3]]]].
  destruct (Nls i Hi) as [h' [a' [H1' [H2' H3']]]].
  rewrite H1 in H1'. rewrite H2 in H2'.
  injection H1' as <-. injection H2' as <-.
  exists h, a. auto.
Qed.
Lemma build_results_Raise_inv (x : Extracted) (indices : list Z) :
  forall results e,
    build_results B x indices results = Raise e ->
    exists i, In i indices /\ match_data B x i = Raise e.
Proof.
  induction indices as [|j rest IH]; simpl; intros results e H; [discriminate|].
  destruct (match_data B x j) as [m|e'] eqn:Ej; simpl in H.
  - destruct (IH _ _ H) as [i [Hin Hi]]. eauto.
  - injection H as <-. eauto.
Qed.

(** How a conversion fails: the subscripts are in range, the exception is
    the one [float] raised. *)
Lemma float_at_Raise_inv (xs : list string) (i : nat) (e : exn) :
  float_at B xs (Z.of_nat i) = Raise e ->
  exists s, nth_error xs i = Some s /\ str_float B s = Raise e.
Proof.
  unfold float_at. destruct (Z.of_nat i <? len xs) eqn:E; [|discriminate].
  apply Z.ltb_lt in E.
  destruct (getitem_in_range xs (Z.of_nat i)) as [s [-> Hs]]; [lia|].
  rewrite Nat2Z.id in Hs.
  rewrite bind_Ok_l. destruct (str_float B s) as [q|e'] eqn:Ef; simpl; [discriminate|].
  intros H. injection H as <-. eauto.
Qed.

Lemma full_time_at_Raise_inv (g : list (list string)) (i k : nat) (e : exn) :
  full_time_at B g (Z.of_nat i) (Z.of_nat k) = Raise e ->
  exists gi s, nth_error g i = Some gi /\ nth_error gi k = Some s /\
               str_float B s = Raise e.
Proof.
  unfold full_time_at. destruct (Z.of_nat i <? len g) eqn:E; [|discriminate].
  apply Z.ltb_lt in E.
  destruct (getitem_in_range g (Z.of_nat i)) as [gi [-> Hgi]]; [lia|].
  rewrite Nat2Z.id in Hgi. rewrite bind_Ok_l.
  destruct (Z.of_nat k + 1 <=? len gi) eqn:E2; [|discriminate].
  apply Z.leb_le in E2.
  destruct (getitem_in_range gi (Z.of_nat k)) as [s [-> Hs]]; [lia|].
  rewrite Nat2Z.id in Hs. rewrite bind_Ok_l.
  destruct (str_float B s) as [q|e'] eqn:Ef; simpl; [discriminate|].
  intros H. injection H as <-. eauto.
Qed.

Lemma full_time_at_Some (g : list (list string)) (i k : nat) (gi : list string)
    (s : string) (v : option F) :
  nth_error g i = Some gi -> nth_error gi k = Some s ->
  full_time_at B g (Z.of_nat i) (Z.of_nat k) = Ok v ->
  exists q, str_float B s = Ok q /\ v = Some q.
Proof.
  intros Hg Hs. unfold full_time_at.
  assert (Hi : (i < List.length g)%nat) by (apply nth_error_Some; congruence).
  assert (Hk : (k < List.length gi)%nat) by (apply nth_error_Some; congruence).
  destruct (Z.of_nat i <? len g) eqn:E;
    [|apply Z.ltb_ge in E; unfold len in E; lia].
  rewrite (getitem_Ok g (Z.of_nat i) gi) by (try lia; rewrite Nat2Z.id; exact Hg).
  rewrite bind_Ok_l.
  destruct (Z.of_nat k + 1 <=? len gi) eqn:E2;
    [|apply Z.leb_gt in E2; unfold len in E2; lia].
  rewrite (getitem_Ok gi (Z.of_nat k) s) by (try lia; rewrite Nat2Z.id; exact Hs).
  rewrite bind_Ok_l.
  destruct (str_float B s) as [q|e]; simpl; intros H; [|discriminate].
  injection H as <-. eauto.
Qed.

Lemma match_data_Raise_inv (x : Extracted) (i : nat) (e : exn) :
  (i < List.length (matches x))%nat ->
  (i < List.length (team_pairs x))%nat ->
  match_data B x (Z.of_nat i) = Raise e ->
  exists s, converted x i s /\ str_float B s = Raise e.
Proof.
  intros Hm Hp. unfold match_data.
  destruct (getitem_in_range (matches x) (Z.of_nat i)) as [label [-> _]];
    [unfold len; lia|].
  destruct (getitem_in_range (team_pairs x) (Z.of_nat i)) as [pair [-> _]];
    [unfold len; lia|].
  assert (Ht : exists t, (if Z.of_nat i <? len (match_times x)
                          then getitem (match_times x) (Z.of_nat i)
                          else Ok ""%string) = Ok t).
  { destruct (Z.of_nat i <? len (match_times x)) eqn:E; [|eauto].
    apply Z.ltb_lt in E.
    destruct (getitem_in_range (match_times x) (Z.of_nat i)) as [t [-> _]];
      [lia | eauto]. }
  destruct Ht as [t ->]. rewrite !bind_Ok_l.
  assert (Hft : forall k, (k < 3)%nat ->
            full_time_at B (full_time_grouped x) (Z.of_nat i) (Z.of_nat k) = Raise e ->
            exists s, converted x i s /\ str_float B s = Raise e).
  { intros k Hk H. apply full_time_at_Raise_inv in H.
    destruct H as [gi [s [H1 [H2 H3]]]]. exists s. split; [|exact H3].
    left. exists gi, k. auto. }
  assert (Hmk : forall xs, In xs (market_lists x) ->
            float_at B xs (Z.of_nat i) = Raise e ->
            exists s, converted x i s /\ str_float B s = Raise e).
  { intros xs Hin H. apply float_at_Raise_inv in H.
    destruct H as [s [H1 H2]]. exists s. split; [|exact H2].
    right. exists xs. auto. }
  change 0 with (Z.of_nat 0). change 1 with (Z.of_nat 1). change 2 with (Z.of_nat 2).
  repeat match goal with
         | |- context [full_time_at B ?g (Z.of_nat i) (Z.of_nat ?k)] =>
             let E := fresh "E" in
             destruct (full_time_at B g (Z.of_nat i) (Z.of_nat k)) as [?|?] eqn:E;
             [rewrite bind_Ok_l
             |simpl; intros H; injection H as <-; apply (Hft k); [lia | exact E]]
         end.
  repeat match goal with
         | |- context [float_at B ?xs (Z.of_nat i)] =>
             let E := fresh "E" in
             destruct (float_at B xs (Z.of_nat i)) as [?|?] eqn:E;
             [rewrite bind_Ok_l
             |simpl; intros H; injection H as <-; apply (Hmk xs); [simpl; auto 8 | exact E]]
         end.
  discriminate.
Qed.

Lemma match_data_converts (x : Extracted) (i : nat) (m : Match F) (s : string) :
  match_data B x (Z.of_nat i) = Ok m -> converted x i s ->
  exists q, str_float B s = Ok q.
Proof.
  intros Hd Hc.
  destruct Hc as [[gi [k [Hg [Hk Hs]]]] | [xs [Hin Hs]]].
  - apply match_data_core in Hd. destruct Hd as [_ [_ [_ [H0 [H1 H2]]]]].
    destruct k as [|[|[|k]]]; [| | |lia].
    + destruct (full_time_at_Some _ i 0 gi s _ Hg Hs H0) as [q [Hq _]]. eauto.
    + destruct (full_time_at_Some _ i 1 gi s _ Hg Hs H1) as [q [Hq _]]. eauto.
    + destruct (full_time_at_Some _ i 2 gi s _ Hg Hs H2) as [q [Hq _]]. eauto.
  - apply match_data_Ok in Hd.
    destruct Hd as [_ [H1 [H2 [H3 [H4 [H5 [H6 H7]]]]]]].
    simpl in Hin.
    repeat (destruct Hin as [<-|Hin];
            [match goal with
             | H : float_at B ?l _ = Ok _ |- _ =>
                 destruct (float_at_Ok l i _ H) as [_ Hv];
                 destruct (Hv s Hs) as [q [Hq _]]; eauto
             end|]).
    contradiction.
Qed.

(** The outcome of the extraction: it returns exactly when every text it
    passes to [float] converts, and an exception it raises is one that
    [float] raised on such a text. *)
Lemma extract_outcome (soup : Soup) (x : Extracted) :
  extract_lists B soup = Ok x ->
  let n := Z.to_nat (result_count x) in
  ((forall i s, (i < n)%nat -> converted x i s -> exists q, str_float B s = Ok q) <->
   exists ms, extract B soup = Ok ms) /\
  (forall e, extract B soup = Raise e ->
     exists i s, (i < n)%nat /\ converted x i s /\ str_float B s = Raise e).
Proof.
  intros Hx n.
  destruct (extract_lists_ok soup) as [x' [Hx' [Lp [Lm _]]]].
  rewrite Hx in Hx'. injection Hx' as <-.
  assert (Hn : forall i, (i < n)%nat ->
            (i < List.length (matches x))%nat /\ (i < List.length (team_pairs x))%nat).
  { intros i Hi. unfold n in Hi. rewrite result_count_nat in Hi. lia. }
  assert (Hraise : forall e, extract B soup = Raise e ->
            exists i s, (i < n)%nat /\ converted x i s /\ str_float B s = Raise e).
  { intros e H. unfold extract in H. rewrite Hx, bind_Ok_l in H.
    apply build_results_Raise_inv in H. destruct H as [z [Hz Hd]].
    apply In_nth_error in Hz. destruct Hz as [i Hi].
    assert (Hlt : (i < n)%nat).
    { unfold n. rewrite <- range_length. apply nth_error_Some. congruence. }
    apply range_nth in Hi. subst z.
    destruct (Hn i Hlt) as [H1 H2].
    destruct (match_data_Raise_inv x i e H1 H2 Hd) as [s [Hc Hs]].
    exists i, s. auto. }
  split; [split|exact Hraise].
  - intros Hall. destruct (extract B soup) as [ms|e] eqn:E; [eauto|].
    destruct (Hraise e eq_refl) as [i [s [Hi [Hc Hs]]]].
    destruct (Hall i s Hi Hc) as [q Hq]. congruence.
  - intros [ms Hms] i s Hi Hc.
    destruct (extract_records soup x ms Hx Hms) as [Hlen Hd].
    assert (Him : (i < List.length ms)%nat) by (rewrite Hlen; exact Hi).
    destruct (nth_error ms i) as [m|] eqn:Em;
      [|apply nth_error_None in Em; lia].
    eapply match_data_converts; eauto.
Qed.

End ScraperFacts.

(** ** Tokens that pass the numeric filter convert to a float *)

Lemma digit_char_facts (c : ascii) :
  is_digit c = true ->
  is_space c = false /\ Ascii.eqb c "." = false /\
  (forall t, sign (String c t) = (1, String c t)).
Proof.
  destruct c as [[] [] [] [] [] [] [] []]; intros H; vm_compute in H;
    try discriminate H; repeat split.
Qed.


Lemma all_digits_remove_first (s : string) :
  all_digits (remove_first "." s) = true ->
  (all_digits s = true /\ remove_first "." s = s) \/
  (exists a b, s = (a ++ String "." b)%string /\ all_digits a = true /\
               all_digits b = true /\ remove_first "." s = (a ++ b)%string).
Proof.
  induction s as [|c t IH]; simpl.
  - auto.
  - destruct (Ascii.eqb c ".") eqn:E.
    + apply Ascii.eqb_eq in E. subst c. intros H. right.
      exists EmptyString, t. auto.
    + simpl. intros H. apply andb_prop in H. destruct H as [Hc Ht].
      destruct (IH Ht) as [[Hd Hr] | [a [b [-> [Ha [Hb Hr]]]]]].
      * left. rewrite Hc, Hd, Hr. auto.
      * right. exists (String c a), b. simpl. rewrite Hc, Ha, Hr. auto.
Qed.









Lemma grouped_tokens (raw : list string) (gi : list string) (s : string) :
  In gi (full_time_grouped_of raw) -> In s gi -> In s raw.
Proof.
  unfold full_time_grouped_of. intros Hg Hs.
  apply in_map_iff in Hg. destruct Hg as [i [<- _]].
  eapply In_slice; eauto.
Qed.

(** ** Strings *)

Lemma startswith_spec (p s : string) :
  startswith p s = true <-> exists post, s = (p ++ post)%string.
Proof.
  revert s. induction p as [|a p IH]; intros s; simpl.
  - split; [intros _; exists s; reflexivity | reflexivity].
  - destruct s as [|b s].
    + split; [discriminate | intros [post H]; discriminate].
    + rewrite andb_true_iff, Ascii.eqb_eq, IH. split.
      * intros [-> [post ->]]. exists post. reflexivity.
      * intros [post H]. inversion H; subst. eauto.
Qed.

Lemma contains_spec (needle hay : string) :
  contains needle hay = true <->
  exists pre post, hay = (pre ++ needle ++ post)%string.
Proof.
  induction hay as [|c t IH]; simpl.
  - rewrite orb_false_r, startswith_spec. split.
    + intros [post H]. exists EmptyString, post. exact H.
    + intros [pre [post H]]. destruct pre; [eauto | discriminate].
  - rewrite orb_true_iff, startswith_spec, IH. split.
    + intros [[post H] | [pre [post H]]].
      * exists EmptyString, post. exact H.
      * exists (String c pre), post. simpl. rewrite H. reflexivity.
    + intros [[|a pre] [post H]]; simpl in H.
      * left. eauto.
      * right. inversion H; subst. eauto.
Qed.

Lemma int_raises_ValueError (s : string) (e : exn) :
  int s = Raise e -> e = ValueError.
Proof.
  unfold int. destruct (sign (strip s)) as [sg s1].
  destruct (digitpart s1) as [[[v k] [|c r]]|]; intros H; inversion H; reflexivity.
Qed.

Lemma find_first {A : Type} (f : A -> bool) (l : list A) :
  forall i m,
    nth_error l i = Some m -> f m = true ->
    (forall j m', (j < i)%nat -> nth_error l j = Some m' -> f m' = false) ->
    find f l = Some m.
Proof.
  induction l as [|a l IH]; intros [|i] m Hm Hf Hbefore; simpl in *; try discriminate.
  - inversion Hm; subst. rewrite Hf. reflexivity.
  - rewrite (Hbefore 0%nat a); [|lia|reflexivity].
    apply (IH i); auto.
    intros j m' Hj Hm'. apply (Hbefore (S j)); [lia | exact Hm'].
Qed.

Lemma find_absent {A : Type} (f : A -> bool) (l : list A) :
  (forall m, In m l -> f m = false) -> find f l = None.
Proof.
  induction l as [|a l IH]; simpl; intros H; [reflexivity|].
  rewrite (H a); auto.
Qed.

(** ** Characters *)

Lemma take_drop (n : nat) (s : string) : (take n s ++ drop n s)%string = s.
Proof.
  revert s. induction n as [|n IH]; intros [|c t]; simpl; try reflexivity.
  rewrite IH. reflexivity.
Qed.

Lemma take_app_length (d r : string) : take (String.length d) (d ++ r) = d.
Proof. induction d as [|c d IH]; simpl; [destruct r; reflexivity | rewrite IH; reflexivity]. Qed.

Lemma drop_app_length (d r : string) : drop (String.length d) (d ++ r) = r.
Proof. induction d as [|c d IH]; simpl; [reflexivity | exact IH]. Qed.

Lemma length_take (n : nat) (s : string) :
  (n <= String.length s)%nat -> String.length (take n s) = n.
Proof.
  revert s. induction n as [|n IH]; intros [|c t]; simpl; intros H; try reflexivity; try lia.
  rewrite IH; [reflexivity | lia].
Qed.

Lemma length_drop (n : nat) (s : string) :
  String.length (drop n s) = (String.length s - n)%nat.
Proof.
  revert s. induction n as [|n IH]; intros [|c t]; simpl; try reflexivity.
  apply IH.
Qed.

Lemma length_zero_empty (s : string) : String.length s = 0%nat -> s = EmptyString.
Proof. destruct s; simpl; [reflexivity | discriminate]. Qed.

Lemma length_append (a b : string) :
  String.length (a ++ b) = (String.length a + String.length b)%nat.
Proof. induction a as [|c a IH]; simpl; [reflexivity | rewrite IH; reflexivity]. Qed.

Lemma char_width_pos (c : ascii) : (1 <= char_width c <= 4)%nat.
Proof.
  unfold char_width.
  repeat match goal with |- context [if ?b then _ else _] => destruct b end; lia.
Qed.

(** A character taken from the head of a text is one character, and the
    text is that character followed by the rest. *)
Lemma next_char_split (s ch rest : string) :
  next_char s = Some (ch, rest) ->
  s = (ch ++ rest)%string /\ one_char ch = true /\ ch <> EmptyString.
Proof.
  unfold next_char. destruct s as [|c t]; [discriminate|].
  destruct (Nat.leb_spec (char_width c) (String.length (String c t))) as [Hw|Hw];
    [|discriminate].
  intros H. injection H as <- <-.
  pose proof (char_width_pos c) as Hp.
  split; [symmetry; apply take_drop|].
  assert (Hl : String.length (take (char_width c) (String c t)) = char_width c)
    by (apply length_take; exact Hw).
  destruct (char_width c) as [|w] eqn:Ew; [lia|].
  split; [|simpl; discriminate].
  unfold one_char, next_char. cbn [take]. rewrite Ew.
  cbn [take] in Hl.
  destruct (Nat.leb_spec (S w) (String.length (String c (take w t)))) as [H1|H1]; [|lia].
  assert (E : drop (S w) (String c (take w t)) = EmptyString).
  { apply length_zero_empty. rewrite length_drop. lia. }
  rewrite E. reflexivity.
Qed.

Lemma one_char_next (d r : string) :
  one_char d = true -> next_char (d ++ r) = Some (d, r).
Proof.
  unfold one_char, next_char. destruct d as [|c t]; [discriminate|].
  cbn [append].
  destruct (Nat.leb_spec (char_width c) (String.length (String c t))) as [Hw|Hw];
    [|discriminate].
  destruct (drop (char_width c) (String c t)) as [|x y] eqn:Ed; [|discriminate].
  intros _.
  assert (Hlen : String.length (String c t) = char_width c).
  { pose proof (length_drop (char_width c) (String c t)) as H.
    rewrite Ed in H. change (String.length EmptyString) with 0%nat in H. lia. }
  rewrite <- Hlen.
  change (String c (t ++ r)) with (String c t ++ r)%string.
  rewrite length_append, take_app_length, drop_app_length.
  destruct (Nat.leb_spec (String.length (String c t))
                         (String.length (String c t) + String.length r)); [reflexivity|lia].
Qed.

Section TextFacts.
Context {F : Type} (B : Builtins F).

(** [re.match] succeeds exactly on the texts that begin with one character
    for each atom of the pattern, each accepted by its atom. *)
Lemma re_match_spec (p : list atom) (s : string) :
  re_match B p s = true <->
  exists cs rest,
    s = (fold_right append rest cs)%string /\
    Forall2 (fun a c => one_char c = true /\ atom_matches B a c = true) p cs.
Proof.
  revert s. induction p as [|a p IH]; intros s; simpl.
  - split; [intros _; exists [], s; split; [reflexivity | constructor]|reflexivity].
  - split.
    + destruct (next_char s) as [[ch rest]|] eqn:En; [|discriminate].
      intros H. apply andb_prop in H. destruct H as [Ha Hp].
      apply IH in Hp. destruct Hp as [cs [rest' [-> HF]]].
      apply next_char_split in En. destruct En as [-> [Hone _]].
      exists (ch :: cs), rest'. split; [reflexivity|].
      constructor; auto.
    + intros [cs [rest [-> HF]]]. inversion HF as [|a' c p' cs' [Hone Ha] HF']; subst.
      simpl. rewrite (one_char_next c _ Hone), Ha. simpl.
      apply IH. eauto.
Qed.

Lemma lit_matches (l : ascii) (c : string) :
  atom_matches B (Lit l) c = true -> c = String l EmptyString.
Proof. simpl. apply String.eqb_eq. Qed.

(** The texts that begin with a stamp: two digits, a slash, two digits, a
    slash, two digits, " - ", two digits, a colon and two digits, where a
    digit is one character that [\d] accepts. *)
Lemma time_pattern_shape (t : string) :
  re_match B time_pattern t = true <->
  exists d1 d2 d3 d4 d5 d6 d7 d8 d9 d10 rest,
    Forall (fun d => one_char d = true /\ re_digit B d = true)
           [d1; d2; d3; d4; d5; d6; d7; d8; d9; d10] /\
    t = (d1 ++ d2 ++ "/" ++ d3 ++ d4 ++ "/" ++ d5 ++ d6 ++ " - " ++
         d7 ++ d8 ++ ":" ++ d9 ++ d10 ++ rest)%string.
Proof.
  rewrite re_match_spec. unfold time_pattern. split.
  - intros [cs [rest [-> HF]]].
    repeat match goal with
           | H : Forall2 _ (_ :: _) _ |- _ => inversion H; subst; clear H
           | H : Forall2 _ [] _ |- _ => inversion H; subst; clear H
           end.
    repeat match goal with
           | H : _ /\ _ |- _ => destruct H
           | H : atom_matches B (Lit _) _ = true |- _ => apply lit_matches in H; subst
           end.
    do 11 eexists. split; [|simpl; reflexivity].
    repeat constructor; assumption.
  - intros (d1 & d2 & d3 & d4 & d5 & d6 & d7 & d8 & d9 & d10 & rest & HF & ->).
    repeat match goal with
           | H : Forall _ (_ :: _) |- _ => inversion H; subst; clear H
           end.
    repeat match goal with H : _ /\ _ |- _ => destruct H end.
    exists [d1; d2; "/"; d3; d4; "/"; d5; d6; " "; "-"; " "; d7; d8; ":"; d9; d10]%string,
           rest.
    split; [reflexivity|].
    repeat (constructor; [split; [first [assumption | reflexivity]
                                 | first [assumption | reflexivity]]|]).
    constructor.
Qed.

End TextFacts.

Lemma reference_agrees_on_ascii : agrees_on_ascii reference.
Proof. intros s _. repeat split. Qed.

Lemma reference_int_raises_ValueError_only : int_raises_ValueError_only reference.
Proof. intros s e H. exact (int_raises_ValueError s e H). Qed.

(* ================================================================== *)
(** * The scraper and the lookup endpoint *)
(* ================================================================== *)

Local Open Scope string_scope.

(** C8: when the team selector yields [2k] or [2k+1] names the aligner
    builds exactly [k] pairs; pair [i] is (name [2i], name [2i+1]), so the
    last name of an odd-length sequence is in no pair. *)
Theorem team_pairs_count {F : Type} (B : Builtins F) (soup : Soup) (k : nat) :
  (List.length (event_team soup) = 2 * k \/
   List.length (event_team soup) = 2 * k + 1)%nat ->
  exists x,
    extract_lists B soup = Ok x /\
    List.length (team_pairs x) = k /\
    forall i, (i < k)%nat ->
      exists h a,
        nth_error (event_team soup) (2 * i) = Some h /\
        nth_error (event_team soup) (2 * i + 1) = Some a /\
        nth_error (team_pairs x) i = Some (h, a).
Proof.
  intros Hlen.
  destruct (extract_lists_ok B soup) as [x [Hx [Lp [_ [Np _]]]]].
  assert (Hk : Nat.div2 (List.length (event_team soup)) = k).
  { destruct Hlen as [-> | ->];
      [apply Nat.div2_double | apply Nat.div2_odd']. }
  rewrite Hk in *. exists x. auto.
Qed.

Lemma team_pairs_count_witness :
  (List.length (event_team Samples.page_one_row) = 2 * 1 + 1)%nat /\
  exists x,
    extract_lists reference Samples.page_one_row = Ok x /\
    List.length (team_pairs x) = 1%nat /\
    forall i, (i < 1)%nat ->
      exists h a,
        nth_error (event_team Samples.page_one_row) (2 * i) = Some h /\
        nth_error (event_team Samples.page_one_row) (2 * i + 1) = Some a /\
        nth_error (team_pairs x) i = Some (h, a).
Proof.
  split; [reflexivity|].
  apply (team_pairs_count reference Samples.page_one_row 1). right. reflexivity.
Defined.

(** C9: a list returned by the extraction has one record for each index
    below the count of line 152, and the mock data have three; in both the
    record at position [i] has id [i], hence the ids of one response are
    pairwise distinct. *)
Theorem match_ids_are_positions {F : Type} (B : Builtins F) (soup : Soup)
    (ms : list (Match F)) :
  extract B soup = Ok ms \/ ms = generate_mock_data B ->
  (forall i, (i < List.length ms)%nat ->
     exists m, nth_error ms i = Some m /\ id m = Z.of_nat i) /\
  NoDup (map id ms) /\
  (extract B soup = Ok ms ->
   exists x, extract_lists B soup = Ok x /\
             List.length ms = Z.to_nat (result_count x)) /\
  (ms = generate_mock_data B -> List.length ms = 3%nat).
Proof.
  intros H.
  assert (Hpos : forall i m, nth_error ms i = Some m -> id m = Z.of_nat i).
  { destruct H as [H | ->].
    - apply (extract_ids B soup ms H).
    - intros [|[|[|[|i]]]] m Hm; simpl in Hm; inversion Hm; reflexivity. }
  split; [|split; [|split]].
  - intros i Hi. destruct (nth_error ms i) as [m|] eqn:Em.
    + exists m. split; [reflexivity | apply Hpos; exact Em].
    + apply nth_error_None in Em. lia.
  - apply positions_NoDup; exact Hpos.
  - intros He. destruct (extract_lists_ok B soup) as [x [Hx _]].
    exists x. split; [exact Hx|].
    apply (extract_records B soup x ms Hx He).
  - intros ->. reflexivity.
Qed.

Lemma match_ids_are_positions_witness :
  exists m0 m1,
    extract reference MoreSamples.page_two_rows = Ok [m0; m1] /\
    match_ m0 = "Gor Mahia vs AFC Leopards" /\ id m0 = 0%Z /\
    match_ m1 = "Tusker vs Ulinzi Stars" /\ id m1 = 1%Z /\
    NoDup (map id [m0; m1]).
Proof.
  destruct (extract reference MoreSamples.page_two_rows) as [ms|e] eqn:E;
    [|vm_compute in E; discriminate E].
  pose proof (match_ids_are_positions reference MoreSamples.page_two_rows ms
                (or_introl E)) as [Hpos [Hnd _]].
  vm_compute in E. injection E as <-.
  do 2 eexists. split; [reflexivity|].
  destruct (Hpos 0%nat ltac:(simpl; lia)) as [m0 [E0 I0]].
  destruct (Hpos 1%nat ltac:(simpl; lia)) as [m1 [E1 I1]].
  simpl in E0, E1. injection E0 as <-. injection E1 as <-.
  split; [reflexivity|]. split; [exact I0|].
  split; [reflexivity|]. split; [exact I1|]. exact Hnd.
Defined.

(** C2, as the code has it: a candidate is kept exactly when it begins
    with two digits, a slash, two digits, a slash, two digits, " - ", two
    digits, a colon and two digits, a digit being one character that [\d]
    accepts; nothing is required of what follows the minute digits. *)
Theorem timestamp_filter_prefix {F : Type} (B : Builtins F)
    (raw_times : list string) (t : string) :
  In t (match_times_of B raw_times) <->
  In t raw_times /\
  exists d1 d2 d3 d4 d5 d6 d7 d8 d9 d10 rest,
    Forall (fun d => one_char d = true /\ re_digit B d = true)
           [d1; d2; d3; d4; d5; d6; d7; d8; d9; d10] /\
    t = d1 ++ d2 ++ "/" ++ d3 ++ d4 ++ "/" ++ d5 ++ d6 ++ " - " ++
        d7 ++ d8 ++ ":" ++ d9 ++ d10 ++ rest.
Proof.
  unfold match_times_of. rewrite filter_In, time_pattern_shape. reflexivity.
Qed.

(** C2 fails as stated: a candidate with text after the minutes is kept although
    the anchored pattern rejects it. *)
Lemma timestamp_filter_not_anchored :
  In "22/06/25 - 20:00 FT" (match_times_of reference ["22/06/25 - 20:00 FT"]) /\
  re_fullmatch reference time_pattern "22/06/25 - 20:00 FT" = false.
Proof. split; [simpl; auto | reflexivity]. Qed.

(** C3, as the code has it: a page without a complete pair of team names
    raises nothing; the extraction returns the empty list, which is not
    the mock data. *)
Theorem no_team_pair_gives_empty_list {F : Type} (B : Builtins F) (soup : Soup) :
  (List.length (event_team soup) < 2)%nat ->
  extract B soup = Ok [] /\
  extract B soup <> Ok (generate_mock_data B).
Proof.
  intros Hlen. pose proof (extract_no_pairs B soup Hlen) as E.
  split; [exact E | rewrite E; discriminate].
Qed.

Lemma no_team_pair_gives_empty_list_witness :
  (List.length (event_team MoreSamples.page_one_name) < 2)%nat /\
  extract reference MoreSamples.page_one_name = Ok [] /\
  extract reference MoreSamples.page_one_name <> Ok (generate_mock_data reference).
Proof.
  assert (H : (List.length (event_team MoreSamples.page_one_name) < 2)%nat)
    by (simpl; lia).
  split; [exact H|].
  exact (no_team_pair_gives_empty_list reference MoreSamples.page_one_name H).
Defined.

(** C3 fails as stated: with no team names on the page the extraction
    returns the empty list, not the mock data. *)
Lemma no_teams_gives_empty_list :
  event_team Samples.page_empty = [] /\
  extract reference Samples.page_empty = Ok [] /\
  generate_mock_data reference <> [].
Proof.
  split; [reflexivity|]. split; [reflexivity | discriminate].
Qed.

(** C1, as the code has it.  The full-time tokens are cut into groups of
    three, the last one possibly shorter.  Let [n] be the least of the
    number of team pairs, of groups and of kept timestamps.  The extraction
    returns a list exactly when [float] accepts every text it is given for
    an index below [n] (the first three tokens of the group and the entry of
    each secondary-market list at that index); otherwise it raises what
    [float] raised.  A returned list has [n] records, record [i] has id [i],
    and each secondary-market field of record [i] is null exactly when its
    list has no entry at [i] and is the converted entry otherwise. *)
Theorem extraction_alignment {F : Type} (B : Builtins F) (soup : Soup) :
  exists x,
    extract_lists B soup = Ok x /\
    List.length (full_time_grouped x) =
      ((List.length (full_time_raw_of B (event_selection soup)) + 2) / 3)%nat /\
    let n := Nat.min (Nat.min (List.length (team_pairs x))
                              (List.length (full_time_grouped x)))
                     (List.length (match_times x)) in
    ((forall i s, (i < n)%nat -> converted x i s ->
        exists q, str_float B s = Ok q) <->
     exists ms, extract B soup = Ok ms) /\
    (forall e, extract B soup = Raise e ->
       exists i s, (i < n)%nat /\ converted x i s /\ str_float B s = Raise e) /\
    (forall ms, extract B soup = Ok ms ->
       List.length ms = n /\
       forall i m, nth_error ms i = Some m ->
         id m = Z.of_nat i /\
         forall xs v, In (xs, v) (combine (market_lists x) (market_fields m)) ->
           (v = None <-> (List.length xs <= i)%nat) /\
           (forall s, nth_error xs i = Some s ->
              exists q, str_float B s = Ok q /\ v = Some q)).
Proof.
  destruct (extract_lists_ok B soup) as [x [Hx [Lp [Lm [_ [_ Hg]]]]]].
  exists x. split; [exact Hx|].
  split.
  { rewrite Hg, grouped_as_chunks, length_map, length_seq. reflexivity. }
  assert (Hn : Z.to_nat (result_count x) =
               Nat.min (Nat.min (List.length (team_pairs x))
                                (List.length (full_time_grouped x)))
                       (List.length (match_times x))).
  { rewrite result_count_nat. rewrite Lp, Lm. reflexivity. }
  cbv zeta. rewrite <- Hn.
  destruct (extract_outcome B soup x Hx) as [Hiff Hraise].
  split; [exact Hiff|]. split; [exact Hraise|].
  intros ms Hms.
  destruct (extract_records B soup x ms Hx Hms) as [Hlen Hd].
  split; [exact Hlen|].
  intros i m Hm. apply Hd in Hm. apply match_data_Ok in Hm.
  destruct Hm as [Hid [H1 [H2 [H3 [H4 [H5 [H6 H7]]]]]]].
  split; [exact Hid|].
  intros xs v Hin. simpl in Hin.
  repeat (destruct Hin as [Hin|Hin];
          [inversion Hin; subst; apply (float_at_Ok B); assumption|]).
  contradiction.
Qed.

Lemma extraction_alignment_witness :
  exists m0 m1,
    extract reference MoreSamples.page_two_rows = Ok [m0; m1] /\
    id m0 = 0%Z /\ id m1 = 1%Z /\
    get (full_time_odds m1) "home" = Some 1.90%Q /\
    get (double_chance m1) "1X" = None.
Proof.
  destruct (extraction_alignment reference MoreSamples.page_two_rows)
    as [x [Hx [_ [_ [_ Hrec]]]]].
  vm_compute in Hx. injection Hx as <-.
  destruct (extract reference MoreSamples.page_two_rows) as [ms|e] eqn:E;
    [|vm_compute in E; discriminate E].
  destruct (Hrec ms eq_refl) as [_ Hfields].
  vm_compute in E. injection E as <-.
  do 2 eexists. split; [reflexivity|].
  destruct (Hfields 0%nat _ eq_refl) as [I0 _].
  destruct (Hfields 1%nat _ eq_refl) as [I1 Hmk].
  split; [exact I0|]. split; [exact I1|]. split; [reflexivity|].
  match goal with
  | |- get (double_chance ?m) "1X" = None =>
      destruct (Hmk [] (get (double_chance m) "1X")) as [Hv _]; [simpl; auto|]
  end.
  apply Hv. simpl. lia.
Defined.

(** C1 fails as stated.  A dash in a secondary market makes the conversion
    raise: one record was due and none is returned.  A field is null already
    when its list is as long as the index, not only when it is shorter: on
    the one-row page the X2 list is empty and the X2 field of record 0 is
    null.  And a last group of fewer than three tokens counts: four tokens,
    two pairs and two timestamps give two records. *)
Lemma alignment_fails_as_stated :
  ((exists x, extract_lists reference Samples.page_dash_price = Ok x /\
              List.length (team_pairs x) = 1%nat /\
              List.length (full_time_grouped x) = 1%nat /\
              List.length (match_times x) = 1%nat) /\
   extract reference Samples.page_dash_price = Raise ValueError) /\
  (exists x m,
     extract_lists reference Samples.page_one_row = Ok x /\
     extract reference Samples.page_one_row = Ok [m] /\
     List.length (dc_x2 x) = 0%nat /\
     get (double_chance m) "X2" = None) /\
  (List.length (full_time_raw_of reference
                  (event_selection MoreSamples.page_two_rows)) = 4%nat /\
   exists ms, extract reference MoreSamples.page_two_rows = Ok ms /\
              List.length ms = 2%nat).
Proof.
  split; [split|split].
  - eexists. split; [vm_compute; reflexivity|]. simpl. auto.
  - vm_compute. reflexivity.
  - do 2 eexists. split; [vm_compute; reflexivity|].
    split; [vm_compute; reflexivity|]. split; reflexivity.
  - split; [reflexivity|]. eexists. split; [vm_compute; reflexivity | reflexivity].
Qed.

Local Open Scope Z_scope.

Section Lookup.
Context {F : Type} (B : Builtins F).

(** On a list the lookup answers 404, or 200 with a member of the list. *)
Lemma lookup_on_list (odds_data : list (Match F)) (match_id : string) :
  int_raises_ValueError_only B ->
  get_match_odds B (Ok (Some odds_data)) match_id
    = {| body := JError "Match not found"; status := 404 |} \/
  exists m, In m odds_data /\
            get_match_odds B (Ok (Some odds_data)) match_id
              = {| body := JMatch m; status := 200 |}.
Proof.
  intros Hv. unfold get_match_odds. rewrite bind_Ok_l.
  destruct (str_int B match_id) as [k|e] eqn:Ei.
  - simpl. destruct ((0 <=? k) && (k <? len odds_data)) eqn:Er; [|auto].
    apply andb_prop in Er. destruct Er as [H0 H1].
    apply Z.leb_le in H0. apply Z.ltb_lt in H1.
    destruct (getitem_in_range odds_data k (conj H0 H1)) as [m [Hg Hn]].
    rewrite Hg. right. exists m. split; [eapply nth_error_In; eauto | reflexivity].
  - rewrite (Hv _ _ Ei). simpl.
    destruct (find _ odds_data) as [m|] eqn:Ef; [|auto].
    right. exists m. split; [|reflexivity].
    apply find_some in Ef. tauto.
Qed.

Lemma lookup_500_iff (scrape : result (option (list (Match F)))) (match_id : string) :
  int_raises_ValueError_only B ->
  (status (get_match_odds B scrape match_id) = 500 <->
   (exists e, scrape = Raise e) \/ scrape = Ok None).
Proof.
  intros Hv. split.
  - intros H. destruct scrape as [[l|]|e]; [|auto|eauto].
    exfalso.
    destruct (lookup_on_list l match_id Hv) as [E | [m [_ E]]];
      rewrite E in H; discriminate H.
  - intros [[e ->] | ->]; [reflexivity|].
    unfold get_match_odds. rewrite bind_Ok_l.
    destruct (str_int B match_id) as [k|e] eqn:Ei; [reflexivity|].
    rewrite (Hv _ _ Ei). reflexivity.
Qed.

End Lookup.

(** C6: [GET /api/odds/<match_id>] on a scraped list.  An id that [int]
    accepts is a zero-based index: in range it selects that record, out of
    range the answer is 404.  An id that [int] rejects selects the first
    record whose lowered label contains the lowered id, and 404 is answered
    when no label does.  On the mock data, [0] selects Manchester United vs
    Liverpool with home odds 2.45, [arsenal] selects Arsenal vs Chelsea and
    [nonexistent] is answered 404. *)
Theorem match_lookup {F : Type} (B : Builtins F) (odds_data : list (Match F))
    (match_id : string) :
  int_raises_ValueError_only B ->
  agrees_on_ascii B ->
  let answer := get_match_odds B (Ok (Some odds_data)) match_id in
  let not_found := {| body := JError "Match not found"; status := 404 |} in
  let mentions (m : Match F) :=
    exists pre post,
      str_lower B (match_ m) = pre ++ str_lower B match_id ++ post in
  (forall k, str_int B match_id = Ok k ->
     (0 <= k < len odds_data ->
      exists m, nth_error odds_data (Z.to_nat k) = Some m /\
                answer = {| body := JMatch m; status := 200 |}) /\
     (~ 0 <= k < len odds_data -> answer = not_found)) /\
  (forall e, str_int B match_id = Raise e ->
     (forall i m,
        nth_error odds_data i = Some m -> mentions m ->
        (forall j m', (j < i)%nat -> nth_error odds_data j = Some m' -> ~ mentions m') ->
        answer = {| body := JMatch m; status := 200 |}) /\
     ((forall m, In m odds_data -> ~ mentions m) -> answer = not_found)) /\
  (let on_mock := get_match_odds B (Ok (Some (generate_mock_data B))) in
   (exists m, on_mock "0" = {| body := JMatch m; status := 200 |} /\
              match_ m = "Manchester United vs Liverpool" /\
              get (full_time_odds m) "home" = Some (literal B 2.45%Q)) /\
   (exists m, on_mock "arsenal" = {| body := JMatch m; status := 200 |} /\
              match_ m = "Arsenal vs Chelsea") /\
   on_mock "nonexistent" = not_found).
Proof.
  intros Hv Hag answer not_found mentions.
  assert (Hno : forall m,
            ~ mentions m ->
            contains (str_lower B match_id) (str_lower B (match_ m)) = false).
  { intros m Hm. destruct (contains _ _) eqn:E; [|reflexivity].
    exfalso. apply Hm. apply contains_spec. exact E. }
  split; [|split].
  - intros k Hk. unfold answer, get_match_odds. rewrite bind_Ok_l, Hk. simpl. split.
    + intros Hr.
      destruct (getitem_in_range odds_data k Hr) as [m [Hg Hn]].
      exists m. split; [exact Hn|].
      replace ((0 <=? k)%Z && (k <? len odds_data)%Z) with true
        by (symmetry; apply andb_true_iff; split;
            [apply Z.leb_le | apply Z.ltb_lt]; lia).
      rewrite Hg. reflexivity.
    + intros Hr.
      replace ((0 <=? k)%Z && (k <? len odds_data)%Z) with false; [reflexivity|].
      symmetry. apply andb_false_iff.
      destruct (Z.leb_spec 0 k); [right|left; reflexivity].
      apply Z.ltb_ge. lia.
  - intros e He. pose proof (Hv _ _ He) as ->.
    unfold answer, get_match_odds. rewrite bind_Ok_l, He. simpl. split.
    + intros i m Hm Hin Hfirst.
      rewrite (find_first _ odds_data i m Hm).
      * reflexivity.
      * apply contains_spec. exact Hin.
      * intros j m' Hj Hm'. apply Hno. eapply Hfirst; eauto.
    + intros Hnone. rewrite find_absent; [reflexivity|].
      intros m Hm. apply Hno. apply Hnone. exact Hm.
  - assert (Hl : forall s, is_ascii s = true -> str_lower B s = lower s)
      by (intros s Hs; apply Hag; exact Hs).
    assert (Hi : forall s, is_ascii s = true -> (String.length s <= 11)%nat ->
                           str_int B s = int s).
    { intros s Hs Hlen. apply Hag; [exact Hs | lia]. }
    cbv zeta. unfold get_match_odds. rewrite !bind_Ok_l.
    rewrite !Hi by (first [reflexivity | simpl; lia]).
    split; [|split].
    + eexists. split; [reflexivity|]. split; reflexivity.
    + cbn [int strip lstrip rstrip sign digitpart is_space is_digit nat_of_ascii].
      simpl. rewrite !Hl by reflexivity.
      eexists. split; [reflexivity|]. reflexivity.
    + simpl. rewrite !Hl by reflexivity. reflexivity.
Qed.

Lemma match_lookup_witness :
  int_raises_ValueError_only reference /\ agrees_on_ascii reference /\
  (exists m, get_match_odds reference (Ok (Some (generate_mock_data reference))) "0"
               = {| body := JMatch m; status := 200 |} /\
             match_ m = "Manchester United vs Liverpool" /\
             get (full_time_odds m) "home" = Some 2.45%Q) /\
  (exists m, get_match_odds reference (Ok (Some (generate_mock_data reference)))
               "arsenal" = {| body := JMatch m; status := 200 |} /\
             match_ m = "Arsenal vs Chelsea") /\
  get_match_odds reference (Ok (Some (generate_mock_data reference))) "nonexistent" =
    {| body := JError "Match not found"; status := 404 |}.
Proof.
  split; [exact reference_int_raises_ValueError_only|].
  split; [exact reference_agrees_on_ascii|].
  exact (proj2 (proj2 (match_lookup reference (generate_mock_data reference) "arsenal"
                         reference_int_raises_ValueError_only
                         reference_agrees_on_ascii))).
Defined.

(** C7: what [GET /api/odds] answers is decided by the call of
    [scrape_sportpesa] alone.  When the call raises, the answer is 500 with
    the exception's message, and only then; what the call returns, the mock
    data included, is served with 200. *)
Theorem scrape_failure_answers_500 {F : Type}
    (scrape : result (option (list (Match F)))) :
  (forall e, scrape = Raise e ->
     get_odds scrape = {| body := JException e; status := 500 |}) /\
  (forall odds_data, scrape = Ok odds_data ->
     get_odds scrape = {| body := JData odds_data; status := 200 |}) /\
  (status (get_odds scrape) = 500 <-> exists e, scrape = Raise e).
Proof.
  split; [intros e ->; reflexivity|].
  split; [intros odds_data ->; reflexivity|].
  destruct scrape as [odds_data|e]; simpl; split.
  - discriminate.
  - intros [e H]. discriminate H.
  - eauto.
  - reflexivity.
Qed.

(* ================================================================== *)
(** * The predictor *)
(* ================================================================== *)

Import MlPredictions.
Local Open Scope Q_scope.

(** ** Arithmetic of the Python fragment *)

Lemma div_Ok (x y : Q) : ~ y == 0 -> div x y = Ok (x / y).
Proof.
  intros H. unfold div. destruct (Qeq_bool y 0) eqn:E; [|reflexivity].
  apply Qeq_bool_eq in E. contradiction.
Qed.

Lemma div_Raise (x y : Q) : y == 0 -> div x y = Raise ZeroDivisionError.
Proof. intros H. unfold div. rewrite (Qeq_eq_bool _ _ H). reflexivity. Qed.

Lemma div_inv (x y q : Q) : div x y = Ok q -> ~ y == 0 /\ q = x / y.
Proof.
  unfold div. destruct (Qeq_bool y 0) eqn:E; [discriminate|].
  intros H. inversion H. split; [apply Qeq_bool_neq; exact E | reflexivity].
Qed.

Lemma div_only_ZeroDivisionError (x y : Q) (e : exn) :
  div x y = Raise e -> e = ZeroDivisionError.
Proof.
  unfold div. destruct (Qeq_bool y 0); intros H; inversion H; reflexivity.
Qed.


Lemma max_spec (a b : Q) :
  (a < b /\ max a b = b) \/ (b <= a /\ max a b = a).
Proof. unfold max. destruct (Qlt_le_dec a b); auto. Qed.

Lemma min_spec (a b : Q) :
  (b < a /\ min a b = b) \/ (a <= b /\ min a b = a).
Proof. unfold min. destruct (Qlt_le_dec b a); auto. Qed.

Lemma clamp_bounds (x : Q) :
  0 <= clamp x <= 1 /\ (0 <= x <= 1 -> clamp x == x) /\ (0 < x -> 0 < clamp x).
Proof.
  unfold clamp.
  destruct (min_spec 1 x) as [[H1 ->] | [H1 ->]];
    destruct (max_spec 0 x) as [[H2 E2] | [H2 E2]];
    destruct (max_spec 0 1) as [[H3 E3] | [H3 E3]];
    try rewrite E2; try rewrite E3; repeat split; intros; try lra.
Qed.

(** ** Rounding *)

Lemma round_half_even_near (y : Q) :
  - (1 # 2) <= inject_Z (round_half_even y) - y <= 1 # 2.
Proof.
  unfold round_half_even.
  pose proof (Qfloor_le y) as Hlo.
  pose proof (Qlt_floor y) as Hhi.
  rewrite inject_Z_plus in Hhi. change (inject_Z 1) with 1 in Hhi.
  destruct (Qcompare_spec (y - inject_Z (Qfloor y)) (1 # 2)) as [E|E|E].
  - destruct (Z.even (Qfloor y)).
    + lra.
    + rewrite inject_Z_plus. change (inject_Z 1) with 1. lra.
  - lra.
  - rewrite inject_Z_plus. change (inject_Z 1) with 1. lra.
Qed.

Lemma round3_thousandths (x : Q) :
  exists k : Z, round x 3 == inject_Z k / 1000 /\
                - (1 # 2) <= inject_Z k - x * 1000 <= 1 # 2.
Proof.
  exists (round_half_even (x * inject_Z (10 ^ Z.of_nat 3))). split.
  - unfold round. reflexivity.
  - apply (round_half_even_near (x * 1000)).
Qed.

(** Three values that sum to 1, each rounded to three decimals, sum to
    0.999, 1 or 1.001. *)
Lemma rounded_sum_near_one (x y z : Q) :
  x + y + z == 1 ->
  Qabs (round x 3 + round y 3 + round z 3 - 1) <= 1 # 1000.
Proof.
  intros Hsum.
  destruct (round3_thousandths x) as [kx [Ex Hx]].
  destruct (round3_thousandths y) as [ky [Ey Hy]].
  destruct (round3_thousandths z) as [kz [Ez Hz]].
  rewrite Ex, Ey, Ez.
  assert (Hk : - (3 # 2) <= inject_Z (kx + ky + kz) - 1000 <= 3 # 2).
  { rewrite !inject_Z_plus. lra. }
  assert (Hz' : (999 <= kx + ky + kz <= 1001)%Z).
  { destruct Hk as [Hlo Hhi]. split.
    - destruct (Z_le_gt_dec 999 (kx + ky + kz)) as [H|H]; [exact H|exfalso].
      assert (H' : (kx + ky + kz <= 998)%Z) by lia.
      rewrite Zle_Qle in H'. change (inject_Z 998) with 998 in H'. lra.
    - destruct (Z_le_gt_dec (kx + ky + kz) 1001) as [H|H]; [exact H|exfalso].
      assert (H' : (1002 <= kx + ky + kz)%Z) by lia.
      rewrite Zle_Qle in H'. change (inject_Z 1002) with 1002 in H'. lra. }
  destruct Hz' as [Hlo Hhi].
  rewrite Zle_Qle in Hlo, Hhi.
  change (inject_Z 999) with 999 in Hlo. change (inject_Z 1001) with 1001 in Hhi.
  rewrite !inject_Z_plus in Hlo, Hhi.
  apply Qabs_Qle_condition. unfold Qdiv. change (/ 1000) with (1 # 1000).
  clear - Hlo Hhi.
  generalize dependent (inject_Z kx). generalize dependent (inject_Z ky).
  generalize dependent (inject_Z kz). intros c b a Hlo Hhi. lra.
Qed.

(** ** Strengths and base probabilities *)

Lemma get_default_cases {V : Type} (d : dict V) (k : string) (default : V) :
  (lookup d k = None /\ get_default d k default = default) \/
  (exists k', In (k', get_default d k default) d).
Proof.
  unfold get_default. induction d as [|[k' v] d IH]; simpl.
  - auto.
  - destruct (String.eqb k' k).
    + right. exists k'. auto.
    + destruct IH as [IH | [k'' IH]]; [auto|]. right. exists k''. auto.
Qed.

Lemma strength_Ok (team : string) :
  exists s,
    strength team = Ok s /\
    (lookup team_strengths team = None -> s = 0.5) /\
    0.5 <= s <= 0.9.
Proof.
  exists (get_default team_strengths team 0.5). split; [reflexivity|].
  destruct (get_default_cases team_strengths team 0.5) as [[Hn ->] | [k' Hin]].
  - split; [reflexivity | lra].
  - split.
    + intros Hn. unfold get_default. rewrite Hn. reflexivity.
    + simpl in Hin.
      repeat (destruct Hin as [Hin|Hin];
              [injection Hin as _ Hv; rewrite <- Hv; lra|]).
      contradiction.
Qed.

(** Lines 54-65 for arbitrary strengths: both values are multiplied by the
    same factor, which is 1 unless one of them exceeds 1, and then the
    larger becomes 1. *)
Lemma base_probs_from_spec (hs aw : Q) :
  exists bh ba c,
    base_probs_from hs aw = Ok (bh, ba) /\
    0 < c <= 1 /\
    bh == c * (hs + 0.1) /\ ba == c * aw /\
    (hs + 0.1 <= 1 -> aw <= 1 -> bh = hs + 0.1 /\ ba = aw /\ c == 1) /\
    (1 < hs + 0.1 \/ 1 < aw -> bh <= 1 /\ ba <= 1 /\ (bh == 1 \/ ba == 1)).
Proof.
  unfold base_probs_from.
  destruct (max_spec (hs + 0.1) aw) as [[Hlt ->] | [Hle ->]].
  - destruct (Qlt_le_dec 1 aw) as [H|H].
    + assert (Hnz : ~ aw == 0) by lra.
      rewrite !(div_Ok _ _ Hnz). simpl.
      exists ((hs + 0.1) / aw), (aw / aw), (/ aw). split; [reflexivity|].
      assert (Hinv : 0 < / aw) by (apply Qinv_lt_0_compat; lra).
      assert (Hinv1 : / aw <= 1).
      { apply Qle_shift_inv_r; lra. }
      assert (Haa : aw / aw == 1) by (field; exact Hnz).
      assert (Hha : (hs + 0.1) / aw <= 1).
      { apply Qle_shift_div_r; lra. }
      split; [lra|]. split; [field; exact Hnz|]. split; [field; exact Hnz|].
      split; [intros; exfalso; lra|].
      intros _. split; [exact Hha|]. split; [lra|]. right. exact Haa.
    + exists (hs + 0.1), aw, 1. split; [reflexivity|].
      split; [lra|]. split; [lra|]. split; [lra|].
      split; [intros; repeat split; lra | intros; exfalso; lra].
  - destruct (Qlt_le_dec 1 (hs + 0.1)) as [H|H].
    + assert (Hnz : ~ hs + 0.1 == 0) by lra.
      rewrite !(div_Ok _ _ Hnz). simpl.
      exists ((hs + 0.1) / (hs + 0.1)), (aw / (hs + 0.1)), (/ (hs + 0.1)).
      split; [reflexivity|].
      assert (Hinv : 0 < / (hs + 0.1)) by (apply Qinv_lt_0_compat; lra).
      assert (Hinv1 : / (hs + 0.1) <= 1).
      { apply Qle_shift_inv_r; lra. }
      assert (Hhh : (hs + 0.1) / (hs + 0.1) == 1) by (field; exact Hnz).
      assert (Hah : aw / (hs + 0.1) <= 1).
      { apply Qle_shift_div_r; lra. }
      split; [lra|]. split; [field; exact Hnz|]. split; [field; exact Hnz|].
      split; [intros; exfalso; lra|].
      intros _. split; [lra|]. split; [exact Hah|]. left. exact Hhh.
    + exists (hs + 0.1), aw, 1. split; [reflexivity|].
      split; [lra|]. split; [lra|]. split; [lra|].
      split; [intros; repeat split; lra | intros; exfalso; lra].
Qed.

(** With the strengths of the table no scaling takes place. *)
Lemma base_probs_Ok (home_team away_team : string) :
  exists sh sa,
    strength home_team = Ok sh /\ strength away_team = Ok sa /\
    base_probs home_team away_team = Ok (sh + 0.1, sa) /\
    0.5 <= sh <= 0.9 /\ 0.5 <= sa <= 0.9.
Proof.
  destruct (strength_Ok home_team) as [sh [Hh [_ Bh]]].
  destruct (strength_Ok away_team) as [sa [Ha [_ Ba]]].
  exists sh, sa. repeat split; try tauto.
  unfold base_probs. rewrite Hh, Ha. simpl.
  destruct (base_probs_from_spec sh sa) as [bh [ba [c [E [_ [_ [_ [Hid _]]]]]]]].
  destruct Hid as [-> [-> _]]; [lra | lra | exact E].
Qed.

(** ** The guard on the odds *)

Lemma usable_odds_present (odds : option (dict (option Q))) (d : dict (option Q))
    (oh od oa : Q) :
  odds = Some d ->
  lookup d "home" = Some (Some oh) ->
  lookup d "draw" = Some (Some od) ->
  lookup d "away" = Some (Some oa) ->
  usable_odds odds = Some (oh, od, oa).
Proof.
  intros -> Hh Hd Ha. unfold usable_odds, get, get_default.
  rewrite Hh, Hd, Ha. reflexivity.
Qed.

Lemma usable_odds_missing (odds : option (dict (option Q))) :
  odds = None \/
  (exists d k, odds = Some d /\ In k ["home"; "draw"; "away"]%string /\
               (lookup d k = None \/ lookup d k = Some None)) ->
  usable_odds odds = None.
Proof.
  intros [-> | [d [k [-> [Hk Hl]]]]]; [reflexivity|].
  assert (Hg : get d k = None).
  { unfold get, get_default. destruct Hl as [-> | ->]; reflexivity. }
  unfold usable_odds. simpl in Hk.
  destruct Hk as [<- | [<- | [<- | []]]]; rewrite Hg.
  - reflexivity.
  - destruct (get d "home"); reflexivity.
  - destruct (get d "home"); [destruct (get d "draw")|]; reflexivity.
Qed.

(** ** The blend (lines 67-91) *)

Lemma blend_without_odds (home_team away_team : string)
    (odds : option (dict (option Q))) (sh sa : Q) :
  base_probs home_team away_team = Ok (sh + 0.1, sa) ->
  usable_odds odds = None ->
  blend home_team away_team odds =
    Ok (sh + 0.1, (1 - abs (sh + 0.1 - sa)) * 0.5, sa).
Proof. intros Hb Hu. unfold blend. rewrite Hb. simpl. rewrite Hu. reflexivity. Qed.

Lemma blend_with_odds (home_team away_team : string)
    (odds : option (dict (option Q))) (sh sa oh od oa : Q) :
  base_probs home_team away_team = Ok (sh + 0.1, sa) ->
  usable_odds odds = Some (oh, od, oa) ->
  ~ oh == 0 -> ~ od == 0 -> ~ oa == 0 -> ~ / oh + / od + / oa == 0 ->
  blend home_team away_team odds =
    Ok (0.7 * (sh + 0.1) + 0.3 * (1 / oh / (1 / oh + 1 / od + 1 / oa)),
        0.7 * ((1 - abs (sh + 0.1 - sa)) * 0.5)
          + 0.3 * (1 / od / (1 / oh + 1 / od + 1 / oa)),
        0.7 * sa + 0.3 * (1 / oa / (1 / oh + 1 / od + 1 / oa))).
Proof.
  intros Hb Hu Hh Hd Ha Ht. unfold blend. rewrite Hb. simpl. rewrite Hu.
  rewrite (div_Ok 1 oh Hh), (div_Ok 1 od Hd), (div_Ok 1 oa Ha). simpl.
  assert (Ht' : ~ 1 / oh + 1 / od + 1 / oa == 0).
  { intros E. apply Ht. rewrite <- E. unfold Qdiv. ring. }
  rewrite !(div_Ok _ _ Ht'). reflexivity.
Qed.

Lemma blend_zero_division (home_team away_team : string)
    (odds : option (dict (option Q))) (sh sa oh od oa : Q) :
  base_probs home_team away_team = Ok (sh + 0.1, sa) ->
  usable_odds odds = Some (oh, od, oa) ->
  oh == 0 \/ od == 0 \/ oa == 0 \/ / oh + / od + / oa == 0 ->
  blend home_team away_team odds = Raise ZeroDivisionError.
Proof.
  intros Hb Hu Hz. unfold blend. rewrite Hb. simpl. rewrite Hu.
  destruct (Qeq_dec oh 0) as [Eh|Eh]; [rewrite (div_Raise 1 oh Eh); reflexivity|].
  rewrite (div_Ok 1 oh Eh). simpl.
  destruct (Qeq_dec od 0) as [Ed|Ed]; [rewrite (div_Raise 1 od Ed); reflexivity|].
  rewrite (div_Ok 1 od Ed). simpl.
  destruct (Qeq_dec oa 0) as [Ea|Ea]; [rewrite (div_Raise 1 oa Ea); reflexivity|].
  rewrite (div_Ok 1 oa Ea). simpl.
  destruct Hz as [Hz|[Hz|[Hz|Hz]]]; try contradiction.
  assert (Ht : 1 / oh + 1 / od + 1 / oa == 0).
  { rewrite <- Hz. unfold Qdiv. ring. }
  rewrite (div_Raise _ _ Ht). reflexivity.
Qed.

(** The sum of the blended values is positive whenever the blend is
    produced. *)
Lemma blend_positive_total (home_team away_team : string)
    (odds : option (dict (option Q))) (h d a : Q) :
  blend home_team away_team odds = Ok (h, d, a) -> 0 < h + d + a.
Proof.
  destruct (base_probs_Ok home_team away_team) as [sh [sa [_ [_ [Hb [Bh Ba]]]]]].
  assert (Hdf : 0 <= (1 - abs (sh + 0.1 - sa)) * 0.5).
  { unfold abs. destruct (Qlt_le_dec (sh + 0.1 - sa) 0); lra. }
  destruct (usable_odds odds) as [[[oh od] oa]|] eqn:Hu.
  - destruct (Qeq_dec oh 0) as [Eh|Eh];
      [rewrite (blend_zero_division _ _ _ _ _ _ _ _ Hb Hu); [discriminate|auto]|].
    destruct (Qeq_dec od 0) as [Ed|Ed];
      [rewrite (blend_zero_division _ _ _ _ _ _ _ _ Hb Hu); [discriminate|auto]|].
    destruct (Qeq_dec oa 0) as [Ea|Ea];
      [rewrite (blend_zero_division _ _ _ _ _ _ _ _ Hb Hu); [discriminate|auto]|].
    destruct (Qeq_dec (/ oh + / od + / oa) 0) as [Et|Et];
      [rewrite (blend_zero_division _ _ _ _ _ _ _ _ Hb Hu); [discriminate|auto 6]|].
    rewrite (blend_with_odds _ _ _ _ _ _ _ _ Hb Hu Eh Ed Ea Et).
    intros H. injection H as <- <- <-.
    assert (Ht' : ~ 1 / oh + 1 / od + 1 / oa == 0).
    { intros E. apply Et. rewrite <- E. unfold Qdiv. ring. }
    assert (Hone : 1 / oh / (1 / oh + 1 / od + 1 / oa)
                   + 1 / od / (1 / oh + 1 / od + 1 / oa)
                   + 1 / oa / (1 / oh + 1 / od + 1 / oa) == 1).
    { revert Ht'. generalize (1 / oh), (1 / od), (1 / oa). intros x y z Hxyz.
      field. exact Hxyz. }
    generalize dependent (1 / oh / (1 / oh + 1 / od + 1 / oa)).
    generalize dependent (1 / od / (1 / oh + 1 / od + 1 / oa)).
    generalize dependent (1 / oa / (1 / oh + 1 / od + 1 / oa)).
    generalize dependent ((1 - abs (sh + 0.1 - sa)) * 0.5).
    intros. lra.
  - rewrite (blend_without_odds _ _ _ _ _ Hb Hu).
    intros H. injection H as <- <- <-.
    generalize dependent ((1 - abs (sh + 0.1 - sa)) * 0.5). intros. lra.
Qed.

(** ** Normalisation, perturbation and the returned prediction *)

Lemma normalize_Ok (h d a : Q) :
  ~ h + d + a == 0 ->
  normalize (h, d, a) =
    Ok (h / (h + d + a), d / (h + d + a), a / (h + d + a)).
Proof. intros Ht. unfold normalize. rewrite !(div_Ok _ _ Ht). reflexivity. Qed.


Lemma normalize_sum (p : Q * Q * Q) (h' d' a' : Q) :
  normalize p = Ok (h', d', a') -> h' + d' + a' == 1.
Proof.
  destruct p as [[h d] a]. intros H.
  destruct (Qeq_dec (h + d + a) 0) as [E|E].
  - unfold normalize in H. rewrite (div_Raise _ _ E) in H. discriminate.
  - rewrite (normalize_Ok _ _ _ E) in H. injection H as <- <- <-.
    field. exact E.
Qed.

Lemma perturb_positive_total (h d a : Q) (u : Draws) :
  h + d + a == 1 -> in_range u ->
  exists x y z, perturb (h, d, a) u = (x, y, z) /\ 0 < x + y + z.
Proof.
  intros Hsum [[L1 U1] [[L2 U2] [L3 U3]]].
  exists (clamp (h + u_home u)), (clamp (d + u_draw u)), (clamp (a + u_away u)).
  split; [reflexivity|].
  destruct (clamp_bounds (h + u_home u)) as [[Bh _] [_ Ph]].
  destruct (clamp_bounds (d + u_draw u)) as [[Bd _] [_ Pd]].
  destruct (clamp_bounds (a + u_away u)) as [[Ba _] [_ Pa]].
  destruct (Qlt_le_dec (1 # 3) h) as [Hh|Hh].
  - assert (0 < clamp (h + u_home u)) by (apply Ph; lra). lra.
  - destruct (Qlt_le_dec (1 # 3) d) as [Hd|Hd].
    + assert (0 < clamp (d + u_draw u)) by (apply Pd; lra). lra.
    + assert (0 < clamp (a + u_away u)) by (apply Pa; lra). lra.
Qed.

Lemma deterministic_probs_Ok (home_team away_team : string)
    (odds : option (dict (option Q))) (b : Q * Q * Q) :
  blend home_team away_team odds = Ok b ->
  exists h d a,
    deterministic_probs home_team away_team odds = Ok (h, d, a) /\
    h + d + a == 1.
Proof.
  destruct b as [[bh bd] ba]. intros Hb.
  pose proof (blend_positive_total _ _ _ _ _ _ Hb) as Hpos.
  assert (Hnz : ~ bh + bd + ba == 0) by lra.
  unfold deterministic_probs. rewrite Hb, bind_Ok_l.
  rewrite (normalize_Ok _ _ _ Hnz).
  do 3 eexists. split; [reflexivity|]. field. exact Hnz.
Qed.

(** Once the deterministic part has produced its three values, the rest of
    the call cannot fail. *)
Lemma predict_after_deterministic (home_team away_team : string)
    (odds : option (dict (option Q))) (u : Draws) (h d a : Q) :
  deterministic_probs home_team away_team odds = Ok (h, d, a) ->
  in_range u ->
  exists r, predict_match_outcome home_team away_team odds u = Ok r.
Proof.
  intros Hd Hu.
  assert (Hsum : h + d + a == 1).
  { unfold deterministic_probs in Hd. bind_inv Hd.
    eapply normalize_sum; eauto. }
  destruct (perturb_positive_total h d a u Hsum Hu) as [x [y [z [Hp Hpos]]]].
  unfold predict_match_outcome. rewrite Hd, bind_Ok_l, Hp.
  rewrite normalize_Ok by lra. rewrite bind_Ok_l. eauto.
Qed.

Lemma predict_Ok_inv (home_team away_team : string)
    (odds : option (dict (option Q))) (u : Draws) (r : Prediction) :
  predict_match_outcome home_team away_team odds u = Ok r ->
  exists p x y z,
    deterministic_probs home_team away_team odds = Ok p /\
    normalize (perturb p u) = Ok (x, y, z) /\
    probabilities r =
      {| p_home_win := round x 3; p_draw := round y 3; p_away_win := round z 3 |}.
Proof.
  unfold predict_match_outcome. intros H.
  bind_inv H. cbv beta in H. bind_inv H. cbv beta in H.
  destruct v0 as [[x y] z]. inversion H; subst; clear H.
  exists v, x, y, z. auto.
Qed.

Lemma predict_Raise_blend (home_team away_team : string)
    (odds : option (dict (option Q))) (u : Draws) (e : exn) :
  blend home_team away_team odds = Raise e ->
  predict_match_outcome home_team away_team odds u = Raise e.
Proof.
  intros H. unfold predict_match_outcome, deterministic_probs.
  rewrite H. reflexivity.
Qed.

Lemma predict_returns_without_odds (home_team away_team : string)
    (odds : option (dict (option Q))) (u : Draws) :
  in_range u ->
  usable_odds odds = None ->
  exists r, predict_match_outcome home_team away_team odds u = Ok r.
Proof.
  intros Hu Hm.
  destruct (base_probs_Ok home_team away_team) as [sh [sa [_ [_ [Hb _]]]]].
  pose proof (blend_without_odds home_team away_team odds sh sa Hb Hm) as Hbl.
  destruct (deterministic_probs_Ok _ _ _ _ Hbl) as [h [d [a [Hd _]]]].
  eapply predict_after_deterministic; eauto.
Qed.

Lemma predict_returns_with_odds (home_team away_team : string)
    (odds : option (dict (option Q))) (u : Draws) (oh od oa : Q) :
  in_range u ->
  usable_odds odds = Some (oh, od, oa) ->
  ~ oh == 0 -> ~ od == 0 -> ~ oa == 0 -> ~ / oh + / od + / oa == 0 ->
  exists r, predict_match_outcome home_team away_team odds u = Ok r.
Proof.
  intros Hu Hp Hh Hd Ha Ht.
  destruct (base_probs_Ok home_team away_team) as [sh [sa [_ [_ [Hb _]]]]].
  pose proof (blend_with_odds home_team away_team odds sh sa oh od oa
                Hb Hp Hh Hd Ha Ht) as Hbl.
  destruct (deterministic_probs_Ok _ _ _ _ Hbl) as [h [d [a [Hdet _]]]].
  eapply predict_after_deterministic; eauto.
Qed.

Lemma predict_raises_on_zero (home_team away_team : string)
    (odds : option (dict (option Q))) (u : Draws) (oh od oa : Q) :
  usable_odds odds = Some (oh, od, oa) ->
  oh == 0 \/ od == 0 \/ oa == 0 \/ / oh + / od + / oa == 0 ->
  predict_match_outcome home_team away_team odds u = Raise ZeroDivisionError.
Proof.
  intros Hp Hz.
  destruct (base_probs_Ok home_team away_team) as [sh [sa [_ [_ [Hb _]]]]].
  apply predict_Raise_blend.
  eapply blend_zero_division; eauto.
Qed.

Lemma positive_prices_usable (oh od oa : Q) :
  0 < oh -> 0 < od -> 0 < oa ->
  ~ oh == 0 /\ ~ od == 0 /\ ~ oa == 0 /\ ~ / oh + / od + / oa == 0.
Proof.
  intros Hh Hd Ha.
  pose proof (Qinv_lt_0_compat oh Hh). pose proof (Qinv_lt_0_compat od Hd).
  pose proof (Qinv_lt_0_compat oa Ha).
  repeat split; lra.
Qed.




Lemma rounded_sum_numerators (x y z : Q) :
  x + y + z == 1 ->
  exists kx ky kz : Z,
    round x 3 == inject_Z kx / 1000 /\
    round y 3 == inject_Z ky / 1000 /\
    round z 3 == inject_Z kz / 1000 /\
    (999 <= kx + ky + kz <= 1001)%Z.
Proof.
  intros Hsum.
  destruct (round3_thousandths x) as [kx [Ex Hx]].
  destruct (round3_thousandths y) as [ky [Ey Hy]].
  destruct (round3_thousandths z) as [kz [Ez Hz]].
  exists kx, ky, kz. repeat split; try assumption.
  - destruct (Z_le_gt_dec 999 (kx + ky + kz)) as [H|H]; [exact H|exfalso].
    assert (H' : (kx + ky + kz <= 998)%Z) by lia.
    rewrite Zle_Qle in H'. change (inject_Z 998) with 998 in H'.
    rewrite !inject_Z_plus in H'. lra.
  - destruct (Z_le_gt_dec (kx + ky + kz) 1001) as [H|H]; [exact H|exfalso].
    assert (H' : (1002 <= kx + ky + kz)%Z) by lia.
    rewrite Zle_Qle in H'. change (inject_Z 1002) with 1002 in H'.
    rewrite !inject_Z_plus in H'. lra.
Qed.

Lemma least_price_positive : 0 < / 10 ^ 300.
Proof. apply Qinv_lt_0_compat. apply Qpower_0_lt. reflexivity. Qed.

(** C5, as the code has it.  With odds absent or incomplete, or with three
    prices present that each lie between 1e-300 and the largest finite
    float (so that no reciprocal leaves the float range), the call returns
    and the three values after the first normalisation sum to 1.  Whenever
    the call returns, each returned probability is a whole number of
    thousandths and the three numerators add up to 999, 1000 or 1001,
    whatever the draws in [-0.05, 0.05]. *)
Theorem probabilities_sum_to_one (home_team away_team : string)
    (odds : option (dict (option Q))) (u : Draws) :
  in_range u ->
  (odds = None \/
   (exists d k, odds = Some d /\ In k ["home"; "draw"; "away"]%string /\
                (lookup d k = None \/ lookup d k = Some None)) \/
   (exists d oh od oa,
      odds = Some d /\
      lookup d "home" = Some (Some oh) /\
      lookup d "draw" = Some (Some od) /\
      lookup d "away" = Some (Some oa) /\
      / 10 ^ 300 <= oh <= float_max /\
      / 10 ^ 300 <= od <= float_max /\
      / 10 ^ 300 <= oa <= float_max) ->
   (exists h d a,
      deterministic_probs home_team away_team odds = Ok (h, d, a) /\
      Qabs (h + d + a - 1) <= 1 # 1000000) /\
   (exists r, predict_match_outcome home_team away_team odds u = Ok r)) /\
  (forall r,
     predict_match_outcome home_team away_team odds u = Ok r ->
     exists kh kd ka : Z,
       p_home_win (probabilities r) == inject_Z kh / 1000 /\
       p_draw (probabilities r) == inject_Z kd / 1000 /\
       p_away_win (probabilities r) == inject_Z ka / 1000 /\
       (999 <= kh + kd + ka <= 1001)%Z).
Proof.
  intros Hu. split.
  - intros Hs.
    assert (Hret : exists r, predict_match_outcome home_team away_team odds u = Ok r).
    { destruct Hs as [Hn | [Hm | (d & oh & od & oa & Ho & Lh & Ld & La & [Bh _] & [Bd _] & [Ba _])]].
      - apply predict_returns_without_odds; [exact Hu|].
        apply usable_odds_missing. left. exact Hn.
      - apply predict_returns_without_odds; [exact Hu|].
        apply usable_odds_missing. right. exact Hm.
      - pose proof (usable_odds_present odds d oh od oa Ho Lh Ld La) as Hp.
        pose proof least_price_positive as Hpos.
        destruct (positive_prices_usable oh od oa) as (Nh & Nd & Na & Nt);
          [eapply Qlt_le_trans; eauto ..|].
        exact (predict_returns_with_odds _ _ _ _ _ _ _ Hu Hp Nh Nd Na Nt). }
    split; [|exact Hret].
    destruct Hret as [r Hr].
    destruct (predict_Ok_inv _ _ _ _ _ Hr) as [[[h d] a] [x [y [z [Hd _]]]]].
    exists h, d, a. split; [exact Hd|].
    assert (Hsum : h + d + a == 1).
    { unfold deterministic_probs in Hd. bind_inv Hd. eapply normalize_sum; eauto. }
    apply Qabs_Qle_condition. lra.
  - intros r Hr.
    destruct (predict_Ok_inv _ _ _ _ _ Hr) as [p [x [y [z [_ [Hn ->]]]]]].
    simpl. apply rounded_sum_numerators. eapply normalize_sum; eauto.
Qed.

Lemma probabilities_sum_to_one_witness :
  in_range Samples.gusty /\
  (exists h d a,
     deterministic_probs "Barcelona" "Real Madrid" (Samples.prices 2.30 3.50 2.90)
       = Ok (h, d, a) /\
     Qabs (h + d + a - 1) <= 1 # 1000000) /\
  exists r,
    predict_match_outcome "Barcelona" "Real Madrid"
      (Samples.prices 2.30 3.50 2.90) Samples.gusty = Ok r /\
    exists kh kd ka : Z,
      p_home_win (probabilities r) == inject_Z kh / 1000 /\
      p_draw (probabilities r) == inject_Z kd / 1000 /\
      p_away_win (probabilities r) == inject_Z ka / 1000 /\
      (999 <= kh + kd + ka <= 1001)%Z.
Proof.
  assert (Hu : in_range Samples.gusty).
  { unfold in_range. simpl. repeat split; lra. }
  split; [exact Hu|].
  destruct (probabilities_sum_to_one "Barcelona" "Real Madrid"
              (Samples.prices 2.30 3.50 2.90) Samples.gusty Hu)
    as [Hscope Hsum].
  destruct Hscope as [Hdet [r Hr]].
  { right. right.
    exists [("home", Some 2.30); ("draw", Some 3.50); ("away", Some 2.90)]%string,
           2.30, 3.50, 2.90.
    repeat split; try reflexivity;
      (apply Qlt_le_weak; eapply Qlt_le_trans;
       [|apply Qle_refl]; unfold Qlt; vm_compute; reflexivity). }
  split; [exact Hdet|].
  exists r. split; [exact Hr | exact (Hsum r Hr)].
Defined.

(** C5 fails as stated.  With a zero among three present prices the call
    returns no probabilities at all.  And the bound 0.001 is met with
    equality, not with room: without odds and with draws of zero the
    probabilities returned for Tottenham against Manchester City are 0.391,
    0.217 and 0.391, which add up to 0.999. *)
Lemma sum_bound_fails_as_stated :
  in_range Samples.calm /\
  predict_match_outcome "Barcelona" "Real Madrid"
    (Samples.prices 2.30 0 2.90) Samples.calm = Raise ZeroDivisionError /\
  exists r,
    predict_match_outcome "Tottenham" "Manchester City" None Samples.calm = Ok r /\
    p_home_win (probabilities r) == 0.391 /\
    p_draw (probabilities r) == 0.217 /\
    p_away_win (probabilities r) == 0.391 /\
    p_home_win (probabilities r) + p_draw (probabilities r)
      + p_away_win (probabilities r) == 0.999.
Proof.
  split; [unfold in_range; simpl; repeat split; lra|].
  split; [vm_compute; reflexivity|].
  eexists. split; [vm_compute; reflexivity|].
  repeat split; vm_compute; reflexivity.
Qed.

(** C10, as the code has it.  The call returns when odds are absent, lack a
    key or hold a null, and when the three prices are present, positive and
    finite; with the three prices present and one of them zero it raises
    ZeroDivisionError: the division is guarded by presence only. *)
Theorem predict_returns_or_divides_by_zero (home_team away_team : string)
    (odds : option (dict (option Q))) (u : Draws) :
  in_range u ->
  (odds = None \/
   (exists d k, odds = Some d /\ In k ["home"; "draw"; "away"]%string /\
                (lookup d k = None \/ lookup d k = Some None)) ->
   exists r, predict_match_outcome home_team away_team odds u = Ok r) /\
  (forall d oh od oa,
     odds = Some d ->
     lookup d "home" = Some (Some oh) ->
     lookup d "draw" = Some (Some od) ->
     lookup d "away" = Some (Some oa) ->
     (0 < oh <= float_max /\ 0 < od <= float_max /\ 0 < oa <= float_max ->
      exists r, predict_match_outcome home_team away_team odds u = Ok r) /\
     (oh == 0 \/ od == 0 \/ oa == 0 ->
      predict_match_outcome home_team away_team odds u = Raise ZeroDivisionError)).
Proof.
  intros Hu. split.
  - intros Hm. apply predict_returns_without_odds; [exact Hu|].
    apply usable_odds_missing; exact Hm.
  - intros d oh od oa Ho Lh Ld La.
    pose proof (usable_odds_present odds d oh od oa Ho Lh Ld La) as Hp.
    split.
    + intros ([Ph _] & [Pd _] & [Pa _]).
      destruct (positive_prices_usable oh od oa Ph Pd Pa) as (Nh & Nd & Na & Nt).
      eapply predict_returns_with_odds; eauto.
    + intros Hz. eapply predict_raises_on_zero; eauto.
      destruct Hz as [Hz|[Hz|Hz]]; auto.
Qed.

Lemma predict_returns_or_divides_by_zero_witness :
  in_range Samples.calm /\
  (exists r, predict_match_outcome "Arsenal" "Chelsea" Samples.no_draw_price
               Samples.calm = Ok r) /\
  (exists r, predict_match_outcome "Arsenal" "Chelsea" (Samples.prices 2.20 3.20 3.40)
               Samples.calm = Ok r) /\
  predict_match_outcome "Arsenal" "Chelsea" (Samples.prices 2.20 3.20 0) Samples.calm
    = Raise ZeroDivisionError.
Proof.
  assert (Hu : in_range Samples.calm).
  { unfold in_range. simpl. repeat split; lra. }
  split; [exact Hu|]. split; [|split].
  - apply (proj1 (predict_returns_or_divides_by_zero
                    "Arsenal" "Chelsea" Samples.no_draw_price Samples.calm Hu)).
    right. exists [("home", Some 2.45); ("draw", None); ("away", Some 2.85)]%string, "draw"%string.
    split; [reflexivity|]. split; [simpl; auto | right; reflexivity].
  - apply (proj2 (predict_returns_or_divides_by_zero
                    "Arsenal" "Chelsea" (Samples.prices 2.20 3.20 3.40) Samples.calm Hu)
                 [("home", Some 2.20); ("draw", Some 3.20); ("away", Some 3.40)]%string
                 2.20 3.20 3.40 eq_refl eq_refl eq_refl eq_refl).
    repeat split; first [lra | unfold Qle; vm_compute; discriminate].
  - apply (proj2 (predict_returns_or_divides_by_zero
                    "Arsenal" "Chelsea" (Samples.prices 2.20 3.20 0) Samples.calm Hu)
                 [("home", Some 2.20); ("draw", Some 3.20); ("away", Some 0)]%string
                 2.20 3.20 0 eq_refl eq_refl eq_refl eq_refl).
    right. right. reflexivity.
Defined.

(** C10 fails as stated: three present, nonzero prices whose reciprocals
    cancel make the normalisation of the implied probabilities divide by
    zero.  The reciprocals -1, 0.5 and 0.5 are exact in binary64 as well, so
    the sum is 0.0 there too. *)
Lemma cancelling_prices_raise :
  in_range Samples.calm /\
  (~ - (1) == 0 /\ ~ 2 == 0) /\
  predict_match_outcome "Arsenal" "Chelsea" (Samples.prices (- (1)) 2 2) Samples.calm
    = Raise ZeroDivisionError.
Proof.
  split; [unfold in_range; simpl; repeat split; lra|].
  split; [split; intros E; vm_compute in E; discriminate E|].
  vm_compute. reflexivity.
Qed.

(* ================================================================== *)
(** * Further properties of the scraper *)
(* ================================================================== *)

Local Open Scope string_scope.
Local Open Scope Z_scope.

(** ** The numeric filter of lines 132-136 *)

Lemma isdigit_iff (t : string) :
  isdigit t = true <-> t <> EmptyString /\ all_digits t = true.
Proof.
  destruct t as [|c t]; simpl.
  - split; [discriminate | intros [H _]; congruence].
  - split; [intros H; split; [discriminate | exact H] | intros [_ H]; exact H].
Qed.

Lemma all_digits_app (a b : string) :
  all_digits (a ++ b) = all_digits a && all_digits b.
Proof.
  induction a as [|c a IH]; simpl; [reflexivity|].
  rewrite IH, andb_assoc. reflexivity.
Qed.

Lemma remove_first_dot_after_digits (a b : string) :
  all_digits a = true ->
  remove_first "." (a ++ String "." b) = (a ++ b)%string.
Proof.
  induction a as [|c a IH]; simpl; intros Ha; [reflexivity|].
  apply andb_prop in Ha. destruct Ha as [Hc Ha].
  destruct (digit_char_facts c Hc) as [_ [Hdot _]].
  rewrite Hdot, (IH Ha). reflexivity.
Qed.

Lemma remove_first_dot_digits (t : string) :
  all_digits t = true -> remove_first "." t = t.
Proof.
  induction t as [|c t IH]; simpl; intros Hd; [reflexivity|].
  apply andb_prop in Hd. destruct Hd as [Hc Hd].
  destruct (digit_char_facts c Hc) as [_ [Hdot _]].
  rewrite Hdot, (IH Hd). reflexivity.
Qed.

Lemma append_empty_inv (a b : string) :
  (a ++ b)%string = EmptyString -> a = EmptyString /\ b = EmptyString.
Proof. destruct a; simpl; [auto | discriminate]. Qed.







Lemma is_ascii_remove_first (c : ascii) (s : string) :
  is_ascii s = true -> is_ascii (remove_first c s) = true.
Proof.
  induction s as [|a s IH]; simpl; intros H; [reflexivity|].
  apply andb_prop in H. destruct H as [Ha Hs].
  destruct (Ascii.eqb a c); [exact Hs|].
  simpl. rewrite Ha. apply IH. exact Hs.
Qed.

(** An ASCII text is kept as a full-time token exactly when it is a
    non-empty run of digits, or two runs of digits around one dot with at
    least one digit in all. *)
Theorem numeric_filter_shape {F : Type} (B : Builtins F)
    (selected : list string) (t : string) :
  agrees_on_ascii B -> is_ascii t = true ->
  (In t (full_time_raw_of B selected) <->
   In t selected /\
   ((t <> EmptyString /\ all_digits t = true) \/
    (exists a b, t = (a ++ String "." b)%string /\
                 all_digits a = true /\ all_digits b = true /\
                 (a <> EmptyString \/ b <> EmptyString)))).
Proof.
  intros Hag Hasc.
  assert (Hd : str_isdigit B (remove_first "." t) = isdigit (remove_first "." t)).
  { apply Hag. apply is_ascii_remove_first. exact Hasc. }
  unfold full_time_raw_of. rewrite filter_In, Hd, isdigit_iff.
  split; intros [Hin H]; (split; [exact Hin|]).
  - destruct H as [Hne Hdg].
    destruct (all_digits_remove_first t Hdg) as [[Ht Hr] | [a [b [-> [Ha [Hb Hr]]]]]].
    + left. rewrite Hr in Hne. auto.
    + right. exists a, b. repeat split; auto.
      destruct a; [right|left; discriminate].
      intros ->. apply Hne. rewrite Hr. reflexivity.
  - destruct H as [[Hne Hdg] | [a [b [-> [Ha [Hb Hne]]]]]].
    + rewrite (remove_first_dot_digits t Hdg). auto.
    + rewrite (remove_first_dot_after_digits a b Ha). split.
      * intros E. apply append_empty_inv in E. destruct E. destruct Hne; congruence.
      * rewrite all_digits_app, Ha, Hb. reflexivity.
Qed.

Lemma numeric_filter_shape_witness :
  In ".5" (full_time_raw_of reference ["Draw"; ".5"; "-"]) /\
  ~ In "-" (full_time_raw_of reference ["Draw"; ".5"; "-"]).
Proof.
  split.
  - apply (numeric_filter_shape reference ["Draw"; ".5"; "-"] ".5"
             reference_agrees_on_ascii eq_refl).
    split; [simpl; auto|]. right. exists "", "5". repeat split. right. discriminate.
  - intros H.
    apply (numeric_filter_shape reference ["Draw"; ".5"; "-"] "-"
             reference_agrees_on_ascii eq_refl) in H.
    destruct H as [_ [[_ Hd] | [a [b [E [Ha _]]]]]]; [discriminate Hd|].
    destruct a as [|c a]; simpl in E; [discriminate E|].
    injection E as <- _. discriminate Ha.
Defined.



(** The full-time tokens are cut into consecutive groups of three; only the
    last group can be shorter, no group is empty, and nothing is lost or
    reordered. *)
Theorem full_time_groups_partition (raw : list string) :
  List.concat (full_time_grouped_of raw) = raw /\
  List.length (full_time_grouped_of raw) = ((List.length raw + 2) / 3)%nat /\
  (forall i g, nth_error (full_time_grouped_of raw) i = Some g ->
     g = firstn 3 (skipn (3 * i) raw) /\
     (1 <= List.length g <= 3)%nat /\
     (S i < List.length (full_time_grouped_of raw) -> List.length g = 3)%nat).
Proof.
  assert (Hlen : List.length (full_time_grouped_of raw)
                 = ((List.length raw + 2) / 3)%nat)
    by (rewrite grouped_as_chunks, length_map, length_seq; reflexivity).
  split; [|split; [exact Hlen|]].
  - rewrite grouped_as_chunks, chunks_concat. apply firstn_all2.
    pose proof (Nat.div_mod_eq (List.length raw + 2) 3) as E.
    pose proof (Nat.mod_upper_bound (List.length raw + 2) 3). lia.
  - intros i g Hg.
    assert (Hi : (i < List.length (full_time_grouped_of raw))%nat)
      by (apply nth_error_Some; congruence).
    destruct (grouped_nth raw i Hi) as [E Hlt].
    assert (Eg : g = firstn 3 (skipn (3 * i) raw)) by congruence.
    clear Hg. subst g.
    split; [reflexivity|].
    rewrite length_firstn, length_skipn. split; [lia|].
    intros Hnext. rewrite Hlen in Hnext.
    pose proof (Nat.Div0.mul_div_le (List.length raw + 2) 3). lia.
Qed.

(** ** What a built record holds besides the secondary markets *)




(** Record [i] of an extraction names the teams at positions [2i] and
    [2i+1] of the team list, home first, and its label is the two names
    joined by " vs ". *)
Theorem record_label_and_teams {F : Type} (B : Builtins F) (soup : Soup)
    (ms : list (Match F)) (i : nat) (m : Match F) :
  extract B soup = Ok ms -> nth_error ms i = Some m ->
  exists h a,
    nth_error (event_team soup) (2 * i) = Some h /\
    nth_error (event_team soup) (2 * i + 1) = Some a /\
    teams m = (h, a) /\
    match_ m = h ++ " vs " ++ a.
Proof.
  intros He Hm.
  destruct (extracted_record B soup ms i m He Hm) as [x [Hx [Hd [Hi _]]]].
  destruct (extract_lists_labels B soup x Hx i Hi) as [h [a [H1 [H2 [H3 H4]]]]].
  apply match_data_core in Hd. destruct Hd as [Hl [Hp _]].
  apply getitem_inv in Hl; [|lia]. apply getitem_inv in Hp; [|lia].
  rewrite Nat2Z.id in Hl, Hp. rewrite H4 in Hl. rewrite H3 in Hp.
  injection Hl as <-. injection Hp as <-.
  exists h, a. auto.
Qed.

Lemma record_label_and_teams_witness :
  exists ms m,
    extract reference MoreSamples.page_two_rows = Ok ms /\
    nth_error ms 1 = Some m /\
    teams m = ("Tusker", "Ulinzi Stars") /\
    match_ m = "Tusker vs Ulinzi Stars".
Proof.
  destruct (extract reference MoreSamples.page_two_rows) as [ms|e] eqn:E;
    [|vm_compute in E; discriminate E].
  assert (Hall := fun m H =>
            record_label_and_teams reference MoreSamples.page_two_rows ms 1 m E H).
  vm_compute in E. injection E as <-.
  do 2 eexists. split; [reflexivity|]. split; [reflexivity|].
  destruct (Hall _ eq_refl) as [h [a [H1 [H2 [H3 H4]]]]].
  simpl in H1, H2. injection H1 as <-. injection H2 as <-.
  split; [exact H3 | exact H4].
Defined.

(** The time of record [i] is the [i]-th kept timestamp: it begins with a
    stamp of the shape dd/dd/dd - dd:dd, and the empty-string alternative
    of line 157 is never taken. *)
Theorem record_time {F : Type} (B : Builtins F) (soup : Soup)
    (ms : list (Match F)) (i : nat) (m : Match F) :
  extract B soup = Ok ms -> nth_error ms i = Some m ->
  nth_error (match_times_of B (span soup)) i = Some (time m) /\
  (exists d1 d2 d3 d4 d5 d6 d7 d8 d9 d10 rest,
     Forall (fun d => one_char d = true /\ re_digit B d = true)
            [d1; d2; d3; d4; d5; d6; d7; d8; d9; d10] /\
     time m = d1 ++ d2 ++ "/" ++ d3 ++ d4 ++ "/" ++ d5 ++ d6 ++ " - " ++
              d7 ++ d8 ++ ":" ++ d9 ++ d10 ++ rest) /\
  time m <> "".
Proof.
  intros He Hm.
  destruct (extracted_record B soup ms i m He Hm) as [x [Hx [Hd [_ [_ Ht]]]]].
  destruct (extract_lists_ok B soup) as [x' [Hx' [_ [_ [_ [Et _]]]]]].
  rewrite Hx in Hx'. injection Hx' as <-.
  apply match_data_core in Hd. destruct Hd as [_ [_ [Htime _]]].
  destruct (Z.of_nat i <? len (match_times x)) eqn:E;
    [|apply Z.ltb_ge in E; unfold len in E; lia].
  apply getitem_inv in Htime; [|lia]. rewrite Nat2Z.id, Et in Htime.
  assert (Hk : re_match B time_pattern (time m) = true).
  { apply nth_error_In in Htime. unfold match_times_of in Htime.
    apply filter_In in Htime. tauto. }
  split; [exact Htime|]. split.
  - apply time_pattern_shape. exact Hk.
  - intros E0. rewrite E0 in Hk. discriminate Hk.
Qed.

Lemma record_time_witness :
  exists ms m,
    extract reference MoreSamples.page_two_rows = Ok ms /\
    nth_error ms 1 = Some m /\
    time m = "23/06/25 - 15:30".
Proof.
  destruct (extract reference MoreSamples.page_two_rows) as [ms|e] eqn:E;
    [|vm_compute in E; discriminate E].
  assert (Hall := fun m H =>
            record_time reference MoreSamples.page_two_rows ms 1 m E H).
  vm_compute in E. injection E as <-.
  do 2 eexists. split; [reflexivity|]. split; [reflexivity|].
  destruct (Hall _ eq_refl) as [H _].
  change (nth_error (match_times_of reference (span MoreSamples.page_two_rows)) 1)
    with (Some "23/06/25 - 15:30") in H.
  congruence.
Defined.

(** ** What extraction can raise *)

(** No subscript of lines 119-177 is out of range: an exception of the
    extraction is one that [float] raised, on a full-time token that passed
    the filter or on a secondary-market text; so when [float] raises nothing
    but [ValueError], neither does the extraction. *)
Theorem extraction_raises_what_float_raises {F : Type} (B : Builtins F)
    (soup : Soup) (e : exn) :
  extract B soup = Raise e ->
  (exists s, str_float B s = Raise e /\
             (In s (full_time_raw_of B (event_selection soup)) \/
              exists selector, In s (data_qa soup selector))) /\
  ((forall s e', str_float B s = Raise e' -> e' = ValueError) -> e = ValueError).
Proof.
  intros H.
  destruct (extract_lists_ok B soup) as [x [Hx [_ [_ [_ [_ Hg]]]]]].
  destruct (extract_outcome B soup x Hx) as [_ Hraise].
  destruct (Hraise e H) as [i [s [_ [Hc Hs]]]].
  split; [|intros Hv; eapply Hv; eauto].
  exists s. split; [exact Hs|].
  destruct Hc as [[gi [k [Hgi [_ Hk]]]] | [xs [Hin Hxs]]].
  - left. rewrite Hg in Hgi.
    eapply grouped_tokens; [eapply nth_error_In; exact Hgi | eapply nth_error_In; exact Hk].
  - right. unfold extract_lists in Hx.
    destruct (team_pairs_of (event_team soup)); [|discriminate].
    destruct (matches_of (event_team soup)); [|discriminate].
    simpl in Hx. injection Hx as <-. simpl in Hin. unfold get_odds_texts in Hin.
    repeat (destruct Hin as [<-|Hin];
            [eexists; eapply nth_error_In; exact Hxs|]).
    contradiction.
Qed.

Lemma extraction_raises_what_float_raises_witness :
  extract reference Samples.page_dash_price = Raise ValueError /\
  exists s, float s = Raise ValueError /\
            (In s (full_time_raw_of reference
                     (event_selection Samples.page_dash_price)) \/
             exists selector, In s (data_qa Samples.page_dash_price selector)).
Proof.
  assert (H : extract reference Samples.page_dash_price = Raise ValueError)
    by (vm_compute; reflexivity).
  split; [exact H|].
  exact (proj1 (extraction_raises_what_float_raises reference
                  Samples.page_dash_price ValueError H)).
Defined.

(** ** The lookup endpoint *)

(** [/api/odds/<id>] answers 500 exactly when the call of
    [scrape_sportpesa] raised or returned [None]; on a list it answers 404
    "Match not found", or 200 with a record that is a member of the list. *)
Theorem lookup_status {F : Type} (B : Builtins F)
    (scrape : result (option (list (Match F)))) (match_id : string) :
  int_raises_ValueError_only B ->
  (status (get_match_odds B scrape match_id) = 500 <->
   (exists e, scrape = Raise e) \/ scrape = Ok None) /\
  (forall odds_data, scrape = Ok (Some odds_data) ->
     get_match_odds B scrape match_id
       = {| body := JError "Match not found"; status := 404 |} \/
     exists m, In m odds_data /\
               get_match_odds B scrape match_id = {| body := JMatch m; status := 200 |}).
Proof.
  intros Hv.
  split; [apply lookup_500_iff; exact Hv|].
  intros odds_data ->. apply lookup_on_list. exact Hv.
Qed.

Lemma lookup_status_witness :
  status (get_match_odds reference (Ok None) "arsenal") = 500 /\
  status (get_match_odds reference (Ok (Some (generate_mock_data reference))) "7") = 404.
Proof.
  split.
  - apply (lookup_status reference (Ok None) "arsenal"
             reference_int_raises_ValueError_only).
    right. reflexivity.
  - destruct (proj2 (lookup_status reference
                       (Ok (Some (generate_mock_data reference))) "7"
                       reference_int_raises_ValueError_only)
                    (generate_mock_data reference) eq_refl) as [E | [m [_ E]]].
    + rewrite E. reflexivity.
    + vm_compute in E. discriminate E.
Defined.

(* ================================================================== *)
(** * Further properties of the predictor *)
(* ================================================================== *)

Local Open Scope Q_scope.

(** ** The base probabilities *)

(** Lines 54-65 for arbitrary strengths: nothing is raised; values that
    are both at most 1 are left as they are; otherwise both are divided by
    the larger one, which keeps their ratio, makes the larger exactly 1 and
    the other at most 1. *)
Theorem base_scaling_law (home_strength away_strength : Q) :
  exists bh ba,
    base_probs_from home_strength away_strength = Ok (bh, ba) /\
    bh * away_strength == ba * (home_strength + 0.1) /\
    (home_strength + 0.1 <= 1 -> away_strength <= 1 ->
     bh = home_strength + 0.1 /\ ba = away_strength) /\
    (1 < home_strength + 0.1 \/ 1 < away_strength ->
     bh <= 1 /\ ba <= 1 /\ (bh == 1 \/ ba == 1)).
Proof.
  destruct (base_probs_from_spec home_strength away_strength)
    as [bh [ba [c [E [_ [Hh [Ha [Hid Hsc]]]]]]]].
  exists bh, ba. split; [exact E|]. split.
  - rewrite Hh, Ha. ring.
  - split; [intros H1 H2; destruct (Hid H1 H2) as [? [? _]]; auto | exact Hsc].
Qed.

(** With the strengths of the table the scaling of lines 63-65 never
    happens: every strength lies between 0.5 and 0.9, so the base values are
    the home strength plus 0.1 and the away strength, at most 1 and 0.9. *)
Theorem table_strengths_never_scaled (home_team away_team : string) :
  exists sh sa,
    strength home_team = Ok sh /\ strength away_team = Ok sa /\
    0.5 <= sh <= 0.9 /\ 0.5 <= sa <= 0.9 /\
    base_probs home_team away_team = Ok (sh + 0.1, sa).
Proof.
  destruct (base_probs_Ok home_team away_team) as [sh [sa [H1 [H2 [H3 [H4 H5]]]]]].
  exists sh, sa. auto.
Qed.

(** ** The deterministic probabilities *)

Lemma blend_positive_parts (home_team away_team : string)
    (odds : option (dict (option Q))) (h d a : Q) :
  usable_odds odds = None \/
  (exists oh od oa, usable_odds odds = Some (oh, od, oa) /\
                    0 < oh /\ 0 < od /\ 0 < oa) ->
  blend home_team away_team odds = Ok (h, d, a) ->
  0 < h /\ 0 < d /\ 0 < a.
Proof.
  intros Ho.
  destruct (base_probs_Ok home_team away_team) as [sh [sa [_ [_ [Hb [Bh Ba]]]]]].
  assert (Hdf : 1 # 4 <= (1 - abs (sh + 0.1 - sa)) * 0.5).
  { unfold abs. destruct (Qlt_le_dec (sh + 0.1 - sa) 0); lra. }
  destruct Ho as [Hu | [oh [od [oa [Hu [Ph [Pd Pa]]]]]]].
  - rewrite (blend_without_odds _ _ _ _ _ Hb Hu).
    intros H. injection H as <- <- <-.
    generalize dependent ((1 - abs (sh + 0.1 - sa)) * 0.5). intros. lra.
  - destruct (positive_prices_usable oh od oa Ph Pd Pa) as (Nh & Nd & Na & Nt).
    rewrite (blend_with_odds _ _ _ _ _ _ _ _ Hb Hu Nh Nd Na Nt).
    intros H. injection H as <- <- <-.
    assert (Xh : 0 < 1 / oh) by (apply Qlt_shift_div_l; lra).
    assert (Xd : 0 < 1 / od) by (apply Qlt_shift_div_l; lra).
    assert (Xa : 0 < 1 / oa) by (apply Qlt_shift_div_l; lra).
    revert Xh Xd Xa. generalize (1 / oh), (1 / od), (1 / oa). intros x y z Xh Xd Xa.
    assert (Ih : 0 < x / (x + y + z)) by (apply Qlt_shift_div_l; lra).
    assert (Id : 0 < y / (x + y + z)) by (apply Qlt_shift_div_l; lra).
    assert (Ia : 0 < z / (x + y + z)) by (apply Qlt_shift_div_l; lra).
    revert Ih Id Ia.
    generalize (x / (x + y + z)), (y / (x + y + z)), (z / (x + y + z)).
    generalize dependent ((1 - abs (sh + 0.1 - sa)) * 0.5). intros. lra.
Qed.

Lemma normalize_positive (h d a h' d' a' : Q) :
  0 < h -> 0 < d -> 0 < a ->
  normalize (h, d, a) = Ok (h', d', a') ->
  0 < h' < 1 /\ 0 < d' < 1 /\ 0 < a' < 1.
Proof.
  intros Ph Pd Pa H.
  rewrite normalize_Ok in H by lra. injection H as <- <- <-.
  repeat split;
    first [apply Qlt_shift_div_l; lra | apply Qlt_shift_div_r; lra].
Qed.

(** With odds absent or incomplete, or with three prices that each lie
    between 1e-300 and the largest finite float, each of the three values
    after the first normalisation lies strictly between 0 and 1. *)
Theorem deterministic_probabilities_in_unit_interval
    (home_team away_team : string) (odds : option (dict (option Q))) (h d a : Q) :
  usable_odds odds = None \/
  (exists oh od oa, usable_odds odds = Some (oh, od, oa) /\
                    / 10 ^ 300 <= oh <= float_max /\
                    / 10 ^ 300 <= od <= float_max /\
                    / 10 ^ 300 <= oa <= float_max) ->
  deterministic_probs home_team away_team odds = Ok (h, d, a) ->
  0 < h < 1 /\ 0 < d < 1 /\ 0 < a < 1.
Proof.
  intros Ho H. unfold deterministic_probs in H. bind_inv H.
  destruct v as [[bh bd] ba].
  assert (Ho' : usable_odds odds = None \/
                (exists oh od oa, usable_odds odds = Some (oh, od, oa) /\
                                  0 < oh /\ 0 < od /\ 0 < oa)).
  { destruct Ho as [Hn | (oh & od & oa & Hu & [Bh _] & [Bd _] & [Ba _])]; [left; exact Hn|].
    right. exists oh, od, oa. split; [exact Hu|].
    pose proof least_price_positive as Hpos.
    repeat split; eapply Qlt_le_trans; eauto. }
  destruct (blend_positive_parts _ _ _ _ _ _ Ho' Hv) as [Ph [Pd Pa]].
  cbv beta in H. exact (normalize_positive _ _ _ _ _ _ Ph Pd Pa H).
Qed.

Lemma deterministic_probabilities_in_unit_interval_witness :
  exists h d a,
    deterministic_probs "Sevilla" "Valencia" (Samples.prices 2.30 3.50 2.90)
      = Ok (h, d, a) /\
    0 < h < 1 /\ 0 < d < 1 /\ 0 < a < 1.
Proof.
  destruct (deterministic_probs "Sevilla" "Valencia" (Samples.prices 2.30 3.50 2.90))
    as [[[h d] a]|e] eqn:E; [|vm_compute in E; discriminate E].
  exists h, d, a. split; [reflexivity|].
  apply (deterministic_probabilities_in_unit_interval
           "Sevilla" "Valencia" (Samples.prices 2.30 3.50 2.90) h d a); [|exact E].
  right. exists 2.30, 3.50, 2.90. split; [reflexivity|].
  repeat split; unfold Qle; vm_compute; discriminate.
Defined.

(** Without usable odds the home side is ahead of the away side after the
    first normalisation exactly when the home strength plus the 0.1 home
    advantage exceeds the away strength; in particular for two teams of
    equal strength, and for two teams that are not in the table. *)
Theorem home_advantage_without_odds
    (home_team away_team : string) (odds : option (dict (option Q))) :
  usable_odds odds = None ->
  exists sh sa h d a,
    strength home_team = Ok sh /\ strength away_team = Ok sa /\
    deterministic_probs home_team away_team odds = Ok (h, d, a) /\
    (a < h <-> sa < sh + 0.1) /\
    (sh == sa -> a < h).
Proof.
  intros Hu.
  destruct (base_probs_Ok home_team away_team) as [sh [sa [Hsh [Hsa [Hb [Bh Ba]]]]]].
  pose proof (blend_without_odds _ _ _ _ _ Hb Hu) as Hbl.
  assert (Hdf : 1 # 4 <= (1 - abs (sh + 0.1 - sa)) * 0.5).
  { unfold abs. destruct (Qlt_le_dec (sh + 0.1 - sa) 0); lra. }
  set (df := (1 - abs (sh + 0.1 - sa)) * 0.5) in *.
  assert (Ht : 0 < sh + 0.1 + df + sa) by lra.
  exists sh, sa. do 3 eexists.
  split; [exact Hsh|]. split; [exact Hsa|]. split.
  - unfold deterministic_probs. rewrite Hbl, bind_Ok_l.
    apply normalize_Ok. lra.
  - assert (Hiff : sa / (sh + 0.1 + df + sa) < (sh + 0.1) / (sh + 0.1 + df + sa)
                   <-> sa < sh + 0.1).
    { unfold Qdiv. apply Qmult_lt_r. apply Qinv_lt_0_compat. exact Ht. }
    split; [exact Hiff|]. intros E. apply Hiff. lra.
Qed.

Lemma home_advantage_without_odds_witness :
  exists h d a,
    deterministic_probs "Kariobangi Sharks" "Bandari" None = Ok (h, d, a) /\ a < h.
Proof.
  destruct (home_advantage_without_odds "Kariobangi Sharks" "Bandari" None eq_refl)
    as (sh & sa & h & d & a & Hsh & Hsa & Hd & Hiff & Heq).
  exists h, d, a. split; [exact Hd|].
  vm_compute in Hsh, Hsa. injection Hsh as <-. injection Hsa as <-.
  apply Heq. reflexivity.
Defined.

(** ** The reported outcome *)

Lemma predict_Ok_shape (home_team away_team : string)
    (odds : option (dict (option Q))) (u : Draws) (r : Prediction) :
  predict_match_outcome home_team away_team odds u = Ok r ->
  exists p x y z,
    deterministic_probs home_team away_team odds = Ok p /\
    normalize (perturb p u) = Ok (x, y, z) /\
    let P := {| p_home_win := round x 3; p_draw := round y 3;
                p_away_win := round z 3 |} in
    probabilities r = P /\
    most_likely_outcome r = argmax P /\
    confidence r = round (probability_of P (argmax P) * 100) 1 /\
    outcome_text r = match argmax P with
                     | home_win => (home_team ++ " Win")%string
                     | draw => "Draw"%string
                     | away_win => (away_team ++ " Win")%string
                     end.
Proof.
  unfold predict_match_outcome. intros H.
  bind_inv H. cbv beta in H. bind_inv H. cbv beta in H.
  destruct v0 as [[x y] z]. inversion H; subst; clear H.
  exists v, x, y, z. simpl. repeat split; auto.
Qed.

Lemma argmax_spec (P : Probabilities) :
  (argmax P = home_win /\ p_draw P <= p_home_win P /\ p_away_win P <= p_home_win P) \/
  (argmax P = draw /\ p_home_win P < p_draw P /\ p_away_win P <= p_draw P) \/
  (argmax P = away_win /\ p_home_win P < p_away_win P /\ p_draw P < p_away_win P).
Proof.
  unfold argmax.
  destruct (Qlt_le_dec (p_home_win P) (p_draw P)) as [H1|H1];
    [destruct (Qlt_le_dec (p_draw P) (p_away_win P)) as [H2|H2]
    |destruct (Qlt_le_dec (p_home_win P) (p_away_win P)) as [H2|H2]].
  - right. right. repeat split; [lra | exact H2].
  - right. left. auto.
  - right. right. repeat split; [exact H2 | lra].
  - left. auto.
Qed.

(** The reported outcome has the largest of the three rounded
    probabilities; among equal largest values [home_win] is preferred to
    [draw] and [draw] to [away_win]; the text names the home team, "Draw",
    or the away team accordingly. *)
Theorem most_likely_outcome_is_first_maximum (home_team away_team : string)
    (odds : option (dict (option Q))) (u : Draws) (r : Prediction) :
  predict_match_outcome home_team away_team odds u = Ok r ->
  let P := probabilities r in
  (most_likely_outcome r = home_win /\
   outcome_text r = (home_team ++ " Win")%string /\
   p_draw P <= p_home_win P /\ p_away_win P <= p_home_win P) \/
  (most_likely_outcome r = draw /\
   outcome_text r = "Draw"%string /\
   p_home_win P < p_draw P /\ p_away_win P <= p_draw P) \/
  (most_likely_outcome r = away_win /\
   outcome_text r = (away_team ++ " Win")%string /\
   p_home_win P < p_away_win P /\ p_draw P < p_away_win P).
Proof.
  intros H.
  destruct (predict_Ok_shape _ _ _ _ _ H) as (p & x & y & z & _ & _ & Hr).
  cbv zeta in Hr. destruct Hr as (HP & Hm & _ & Ht).
  cbv zeta. rewrite HP, Hm, Ht.
  destruct (argmax_spec {| p_home_win := round x 3; p_draw := round y 3;
                           p_away_win := round z 3 |})
    as [[E ?] | [[E ?] | [E ?]]]; rewrite E; tauto.
Qed.

Lemma most_likely_outcome_is_first_maximum_witness :
  exists r,
    predict_match_outcome "Arsenal" "Chelsea" None Samples.calm = Ok r /\
    most_likely_outcome r = home_win /\
    outcome_text r = "Arsenal Win"%string.
Proof.
  destruct (predict_match_outcome "Arsenal" "Chelsea" None Samples.calm)
    as [r|e] eqn:E; [|vm_compute in E; discriminate E].
  exists r. split; [reflexivity|].
  destruct (most_likely_outcome_is_first_maximum _ _ _ _ _ E)
    as [[Hm [Ht _]] | [[Hm [_ [Hlt _]]] | [Hm [_ [Hlt _]]]]].
  - auto.
  - exfalso. vm_compute in E. injection E as <-. vm_compute in Hlt. discriminate Hlt.
  - exfalso. vm_compute in E. injection E as <-. vm_compute in Hlt. discriminate Hlt.
Defined.

(** ** Rounding and the confidence *)

Lemma round_half_even_inject (k : Z) : round_half_even (inject_Z k) = k.
Proof.
  unfold round_half_even. rewrite Qfloor_Z.
  destruct (Qcompare_spec (inject_Z k - inject_Z k) (1 # 2)) as [E|E|E];
    [exfalso; lra | reflexivity | exfalso; lra].
Qed.

Lemma round_half_even_proper (x y : Q) :
  x == y -> round_half_even x = round_half_even y.
Proof.
  intros E. unfold round_half_even.
  rewrite (Qfloor_comp x y E).
  assert (E2 : x - inject_Z (Qfloor y) == y - inject_Z (Qfloor y))
    by (rewrite E; reflexivity).
  rewrite (Qcompare_comp _ _ E2 (1 # 2) (1 # 2) (Qeq_refl _)). reflexivity.
Qed.

Lemma round_proper (x y : Q) (n : nat) : x == y -> round x n = round y n.
Proof.
  intros E. unfold round.
  rewrite (round_half_even_proper (x * inject_Z (10 ^ Z.of_nat n))
                                  (y * inject_Z (10 ^ Z.of_nat n)));
    [reflexivity | rewrite E; reflexivity].
Qed.

Lemma normalized_clamped_in_unit (p : Q * Q * Q) (u : Draws) (x y z : Q) :
  normalize (perturb p u) = Ok (x, y, z) ->
  0 <= x <= 1 /\ 0 <= y <= 1 /\ 0 <= z <= 1 /\ x + y + z == 1.
Proof.
  destruct p as [[h d] a]. unfold perturb. intros H.
  pose proof (normalize_sum _ _ _ _ H) as Hsum.
  destruct (clamp_bounds (h + u_home u)) as [[Bh _] _].
  destruct (clamp_bounds (d + u_draw u)) as [[Bd _] _].
  destruct (clamp_bounds (a + u_away u)) as [[Ba _] _].
  revert H Bh Bd Ba.
  generalize (clamp (h + u_home u)), (clamp (d + u_draw u)), (clamp (a + u_away u)).
  intros ch cd ca H Bh Bd Ba.
  destruct (Qeq_dec (ch + cd + ca) 0) as [E|E].
  - unfold normalize in H. rewrite (div_Raise _ _ E) in H. discriminate.
  - rewrite (normalize_Ok _ _ _ E) in H. injection H as <- <- <-.
    assert (Ht : 0 < ch + cd + ca) by lra.
    repeat split;
      first [apply Qle_shift_div_l; lra | apply Qle_shift_div_r; lra | exact Hsum].
Qed.

Lemma round3_unit (x : Q) :
  0 <= x <= 1 ->
  exists k : Z, (0 <= k <= 1000)%Z /\ round x 3 == inject_Z k / 1000 /\
                - (1 # 2) <= inject_Z k - x * 1000 <= 1 # 2.
Proof.
  intros Hx. destruct (round3_thousandths x) as [k [Ek Hk]].
  exists k. split; [|split; [exact Ek | exact Hk]]. split.
  - destruct (Z_le_gt_dec 0 k) as [H|H]; [exact H|exfalso].
    assert (H' : (k <= -1)%Z) by lia.
    rewrite Zle_Qle in H'. change (inject_Z (-1)) with (-1 # 1) in H'. lra.
  - destruct (Z_le_gt_dec k 1000) as [H|H]; [exact H|exfalso].
    assert (H' : (1001 <= k)%Z) by lia.
    rewrite Zle_Qle in H'. change (inject_Z 1001) with 1001 in H'. lra.
Qed.

Lemma confidence_of_thousandths (v : Q) (k : Z) :
  v == inject_Z k / 1000 -> round (v * 100) 1 == v * 100.
Proof.
  intros E. unfold round.
  assert (E1 : v * 100 * inject_Z (10 ^ Z.of_nat 1) == inject_Z k).
  { rewrite E. change (inject_Z (10 ^ Z.of_nat 1)) with 10. field. }
  rewrite (round_half_even_proper _ _ E1), round_half_even_inject.
  rewrite E. change (inject_Z (10 ^ Z.of_nat 1)) with 10. field.
Qed.

(** Each returned probability is a whole number of thousandths between 0
    and 1; the confidence is exactly 100 times the probability of the
    reported outcome (the second rounding changes nothing) and lies between
    33.3 and 100. *)
Theorem confidence_range (home_team away_team : string)
    (odds : option (dict (option Q))) (u : Draws) (r : Prediction) :
  predict_match_outcome home_team away_team odds u = Ok r ->
  let P := probabilities r in
  (forall v, In v [p_home_win P; p_draw P; p_away_win P] ->
     exists k : Z, (0 <= k <= 1000)%Z /\ v == inject_Z k / 1000) /\
  confidence r == 100 * probability_of P (most_likely_outcome r) /\
  33.3 <= confidence r <= 100.
Proof.
  intros H.
  destruct (predict_Ok_shape _ _ _ _ _ H) as (p & x & y & z & _ & Hn & Hr).
  cbv zeta in Hr. destruct Hr as (HP & Hm & Hc & _).
  destruct (normalized_clamped_in_unit _ _ _ _ _ Hn) as (Bx & By & Bz & Hsum).
  destruct (round3_unit x Bx) as (kx & Rx & Ex & _).
  destruct (round3_unit y By) as (ky & Ry & Ey & _).
  destruct (round3_unit z Bz) as (kz & Rz & Ez & _).
  pose proof (rounded_sum_near_one x y z Hsum) as Hnear.
  apply Qabs_Qle_condition in Hnear.
  cbv zeta. rewrite HP, Hm, Hc. simpl p_home_win. simpl p_draw. simpl p_away_win.
  set (P := {| p_home_win := round x 3; p_draw := round y 3;
               p_away_win := round z 3 |}) in *.
  assert (Hk : exists k : Z, (0 <= k <= 1000)%Z /\
                             probability_of P (argmax P) == inject_Z k / 1000).
  { destruct (argmax P); simpl; eauto. }
  destruct Hk as (k & Rk & Ek).
  assert (Hconf : round (probability_of P (argmax P) * 100) 1
                  == 100 * probability_of P (argmax P)).
  { rewrite (confidence_of_thousandths _ k Ek). ring. }
  split; [|split; [exact Hconf|]].
  - intros v Hv. simpl in Hv.
    destruct Hv as [<-|[<-|[<-|[]]]]; eauto.
  - rewrite Hconf.
    assert (Hmax : p_home_win P <= probability_of P (argmax P) /\
                   p_draw P <= probability_of P (argmax P) /\
                   p_away_win P <= probability_of P (argmax P)).
    { destruct (argmax_spec P) as [[E [H1 H2]] | [[E [H1 H2]] | [E [H1 H2]]]];
        rewrite E; unfold P in *; simpl in *; repeat split; lra. }
    simpl in Hmax.
    assert (Hle : probability_of P (argmax P) <= 1).
    { rewrite Ek. apply Qle_shift_div_r; [lra|].
      destruct Rk as [_ Rk]. rewrite Zle_Qle in Rk.
      change (inject_Z 1000) with 1000 in Rk. lra. }
    revert Hmax Hle Hnear. simpl.
    generalize (probability_of P (argmax P)), (round x 3), (round y 3), (round z 3).
    intros c a b d Hmax Hle Hnear. lra.
Qed.

Lemma confidence_range_witness :
  exists r,
    predict_match_outcome "Arsenal" "Chelsea" None Samples.gusty = Ok r /\
    33.3 <= confidence r <= 100.
Proof.
  destruct (predict_match_outcome "Arsenal" "Chelsea" None Samples.gusty)
    as [r|e] eqn:E; [|vm_compute in E; discriminate E].
  exists r. split; [reflexivity|].
  exact (proj2 (proj2 (confidence_range _ _ _ _ _ E))).
Defined.

(* ================================================================== *)
(** * Further properties of the endpoints *)
(* ================================================================== *)

Import Endpoints.

(** ** The predictions endpoint *)







